(** * Bookmark-Tool: parsing, normalisation, deduplication and set comparison

    A shallow embedding of the Python scripts of the repository:

    - [deduplicate_bookmarks.py] and [deduplicate_bookmarks_健壮版1.py]
      (first-seen deduplication, URL normalisation, report ordering),
    - [compare_bookmarks.py] (regular-expression parser),
    - [compare_bookmarks_流式解析.py] and [compare_multi_bookmarks_流式解析.py]
      (event-driven [HTMLParser] subclasses, N-way set analysis),
    - [compare_multi_bookmarks.py] (N-way intersection with
      [set.intersection]).

    Python strings are modelled as [string]; a character is an 8-bit code
    point.  Python sets are [gset]s, the insertion-ordered [dict] of the
    deduplication pass is an association list in insertion order. *)

From Stdlib Require Import Ascii ZArith Lia Permutation Sorted.
From stdpp Require Import base gmap sets list sorting strings.

Local Open Scope stdpp_scope.

(** ** Python string primitives *)

Module PyStr.

(** [len(s)] *)
Definition len (s : string) : nat := String.length s.

(** [s[n:]] for a non-negative [n]; past the end it is the empty string. *)
Fixpoint drop (n : nat) (s : string) : string :=
  match n, s with
  | O, _ => s
  | S _, EmptyString => EmptyString
  | S n', String _ s' => drop n' s'
  end.

(** [s[:n]] for a non-negative [n]. *)
Fixpoint take (n : nat) (s : string) : string :=
  match n, s with
  | O, _ => EmptyString
  | S _, EmptyString => EmptyString
  | S n', String c s' => String c (take n' s')
  end.

(** [s[i:]] with Python's treatment of a negative index. *)
Definition slice_from (i : Z) (s : string) : string :=
  if (i <? 0)%Z
  then drop (Z.to_nat (Z.max 0 (Z.of_nat (len s) + i))) s
  else drop (Z.to_nat i) s.

(** [s.startswith(p)] *)
Fixpoint startswith (p s : string) : bool :=
  match p, s with
  | EmptyString, _ => true
  | String _ _, EmptyString => false
  | String a p', String b s' => Ascii.eqb a b && startswith p' s'
  end.

(** [s.startswith((p1, p2, ...))] with a tuple of prefixes. *)
Definition startswith_any (ps : list string) (s : string) : bool :=
  existsb (fun p => startswith p s) ps.

(** [s.find(sub)]: the lowest index where [sub] occurs, [-1] if none.
    [i] is the index of the head of [s] in the whole string. *)
Fixpoint find_from (sub s : string) (i : nat) : Z :=
  if startswith sub s then Z.of_nat i
  else match s with
       | EmptyString => (-1)%Z
       | String _ s' => find_from sub s' (S i)
       end.

Definition find (s sub : string) : Z := find_from sub s 0.

(** [sub in s] *)
Fixpoint contains (sub s : string) : bool :=
  startswith sub s ||
  match s with
  | EmptyString => false
  | String _ s' => contains sub s'
  end.

(** [c in chars] for a single character. *)
Fixpoint mem_char (c : ascii) (chars : string) : bool :=
  match chars with
  | EmptyString => false
  | String d chars' => Ascii.eqb c d || mem_char c chars'
  end.

(** [s.rstrip(chars)]: drops every trailing character that belongs to
    [chars]. *)
Fixpoint rstrip_chars (chars s : string) : string :=
  match s with
  | EmptyString => EmptyString
  | String c s' =>
      match rstrip_chars chars s' with
      | EmptyString =>
          if mem_char c chars then EmptyString else String c EmptyString
      | r => String c r
      end
  end.

(** [str.isspace] on one character (code points below 256). *)
Definition is_space (c : ascii) : bool :=
  let n := nat_of_ascii c in
  ((9 <=? n) && (n <=? 13) || (28 <=? n) && (n <=? 32)
   || (n =? 133) || (n =? 160))%nat.

Fixpoint lstrip (s : string) : string :=
  match s with
  | EmptyString => EmptyString
  | String c s' => if is_space c then lstrip s' else s
  end.

Fixpoint rstrip (s : string) : string :=
  match s with
  | EmptyString => EmptyString
  | String c s' =>
      match rstrip s' with
      | EmptyString => if is_space c then EmptyString else String c EmptyString
      | r => String c r
      end
  end.

(** [s.strip()] *)
Definition strip (s : string) : string := rstrip (lstrip s).

(** [str.lower] on one character (code points below 256): the ASCII
    capitals and the Latin-1 capitals move up by 32. *)
Definition lower_char (c : ascii) : ascii :=
  let n := nat_of_ascii c in
  if ((65 <=? n) && (n <=? 90)
      || (192 <=? n) && (n <=? 222) && negb (n =? 215))%nat
  then ascii_of_nat (n + 32) else c.

(** [s.lower()] *)
Fixpoint lower (s : string) : string :=
  match s with
  | EmptyString => EmptyString
  | String c s' => String (lower_char c) (lower s')
  end.

(** Truthiness of a string: [if s:] holds for a non-empty string. *)
Definition truthy (s : string) : bool :=
  match s with EmptyString => false | String _ _ => true end.

(** [c * n] for a one-character string [c]. *)
Fixpoint replicate (n : nat) (c : ascii) : string :=
  match n with
  | O => EmptyString
  | S n' => String c (replicate n' c)
  end.

(** The last character of a string, if any. *)
Fixpoint last (s : string) : option ascii :=
  match s with
  | EmptyString => None
  | String c EmptyString => Some c
  | String _ s' => last s'
  end.

End PyStr.

(** ** The fragment of Python's [re] the scripts use

    A backtracking matcher in continuation-passing style, with Python's
    preference order: a greedy [*] tries the longest run first, a lazy [*?]
    the shortest.  Every repetition in the repository's patterns ranges
    over a single character class, which is what [Star] and [Lazy] take. *)

Module Re.

Inductive regex : Type :=
| Eps                           (* the empty pattern *)
| Lit (c : ascii)               (* a literal character *)
| Cls (p : ascii -> bool)       (* a character class *)
| Seq (r1 r2 : regex)
| Opt (r : regex)               (* [r?], greedy *)
| Star (p : ascii -> bool)      (* [p*], greedy *)
| Lazy (p : ascii -> bool)      (* [p*?], lazy *)
| Group (r : regex).            (* [(r)], capturing *)

(** The outcome of a match: the text left after it and the captured
    groups in the order the groups close (no pattern of the repository
    nests groups, so this is the order of their numbers). *)
Definition outcome : Type := (string * list string)%type.

(** What a sub-match consumed, given the text before and after it. *)
Definition consumed (before after : string) : string :=
  PyStr.take (PyStr.len before - PyStr.len after) before.

(** Literal comparison, under [re.IGNORECASE] when [ic] is set. *)
Definition lit_eqb (ic : bool) (c x : ascii) : bool :=
  if ic then Ascii.eqb (PyStr.lower_char c) (PyStr.lower_char x)
  else Ascii.eqb c x.

Fixpoint rmatch (ic : bool) (r : regex) (s : string) (caps : list string)
    (k : string -> list string -> option outcome) : option outcome :=
  match r with
  | Eps => k s caps
  | Lit c =>
      match s with
      | String x s' => if lit_eqb ic c x then k s' caps else None
      | EmptyString => None
      end
  | Cls p =>
      match s with
      | String x s' => if p x then k s' caps else None
      | EmptyString => None
      end
  | Seq r1 r2 =>
      rmatch ic r1 s caps (fun s' caps' => rmatch ic r2 s' caps' k)
  | Opt r1 =>
      match rmatch ic r1 s caps k with
      | Some o => Some o
      | None => k s caps
      end
  | Star p =>
      (fix loop (t : string) : option outcome :=
         match t with
         | String x t' =>
             if p x
             then match loop t' with
                  | Some o => Some o
                  | None => k t caps
                  end
             else k t caps
         | EmptyString => k t caps
         end) s
  | Lazy p =>
      (fix loop (t : string) : option outcome :=
         match k t caps with
         | Some o => Some o
         | None =>
             match t with
             | String x t' => if p x then loop t' else None
             | EmptyString => None
             end
         end) s
  | Group r1 =>
      rmatch ic r1 s caps (fun s' caps' => k s' (caps' ++ [consumed s s']))
  end.

(** [pattern.match(s)]: a match that starts at the head of [s]. *)
Definition re_match (ic : bool) (r : regex) (s : string) : option outcome :=
  rmatch ic r s [] (fun rest caps => Some (rest, caps)).

(** [pattern.findall(s)]: the groups of the non-overlapping matches, left
    to right.  [skip] counts the characters still covered by the previous
    match.  No pattern of the repository matches the empty string. *)
Fixpoint findall_from (ic : bool) (r : regex) (s : string) (skip : nat)
    : list (list string) :=
  match s with
  | EmptyString => []
  | String _ s' =>
      match skip with
      | S n => findall_from ic r s' n
      | O =>
          match re_match ic r s with
          | Some (rest, caps) =>
              caps :: findall_from ic r s' (PyStr.len s - PyStr.len rest - 1)
          | None => findall_from ic r s' 0
          end
      end
  end.

Definition findall (ic : bool) (r : regex) (s : string) : list (list string) :=
  findall_from ic r s 0.

(** [re.sub(pattern, repl, s)] for a pattern without [^]. *)
Fixpoint sub_from (ic : bool) (r : regex) (repl s : string) (skip : nat)
    : string :=
  match s with
  | EmptyString => EmptyString
  | String c s' =>
      match skip with
      | S n => sub_from ic r repl s' n
      | O =>
          match re_match ic r s with
          | Some (rest, _) =>
              repl +:+ sub_from ic r repl s' (PyStr.len s - PyStr.len rest - 1)
          | None => String c (sub_from ic r repl s' 0)
          end
      end
  end.

Definition sub (ic : bool) (r : regex) (repl s : string) : string :=
  sub_from ic r repl s 0.

(** [re.sub('^' + pattern, repl, s)]: without [re.MULTILINE] the anchor
    [^] holds at index 0 only, so at most the match at the head of [s] is
    replaced. *)
Definition sub_bos (ic : bool) (r : regex) (repl s : string) : string :=
  match re_match ic r s with
  | Some (rest, _) => repl +:+ rest
  | None => s
  end.

(** A run of literal characters. *)
Fixpoint lits (s : string) : regex :=
  match s with
  | EmptyString => Eps
  | String c s' => Seq (Lit c) (lits s')
  end.

(** The concatenation of the pieces of a pattern, left to right. *)
Definition cat (rs : list regex) : regex := foldr Seq Eps rs.

(** [.] without [re.DOTALL], and with it. *)
Definition dot (x : ascii) : bool := negb (Ascii.eqb x "010"%char).
Definition dot_all (x : ascii) : bool := true.

(** The class of every character but [>], and the class of the two
    quote characters (double quote, code 34, and apostrophe, code 39). *)
Definition not_gt (x : ascii) : bool := negb (Ascii.eqb x ">"%char).
Definition quote (x : ascii) : bool :=
  Ascii.eqb x "034"%char || Ascii.eqb x "039"%char.

End Re.

(** ** [deduplicate_bookmarks.py] and [deduplicate_bookmarks_健壮版1.py] *)

(** A bookmark as the parsers return it: the pair [(url, title)]. *)
Definition bookmark : Type := (string * string)%type.

(** The key of the deduplication dictionary and the element of the
    comparison sets: a URL in mode ['url'], the tuple [(url, title)] in
    mode ['url-title']. *)
Inductive CanonicalKey : Type :=
| KUrl (url : string)
| KPair (url title : string).

Global Instance CanonicalKey_eq_dec : EqDecision CanonicalKey.
Proof. solve_decision. Defined.

Global Instance CanonicalKey_countable : Countable CanonicalKey.
Proof.
  refine (inj_countable'
    (fun k => match k with KUrl u => inl u | KPair u t => inr (u, t) end)
    (fun x => match x with inl u => KUrl u | inr (u, t) => KPair u t end) _).
  by intros [].
Defined.

Module Dedup.

(** The pattern [^https?://] after the anchor. *)
Definition https_re : Re.regex :=
  Re.cat [Re.lits "http"; Re.Opt (Re.Lit "s"%char); Re.lits "://"].

(** [normalize_url(url, strict_protocol, ignore_slash)] of
    [deduplicate_bookmarks_健壮版1.py]. *)
Definition normalize_url (url : string) (strict_protocol ignore_slash : bool)
    : string :=
  let url :=
    if negb strict_protocol then Re.sub_bos false https_re "" url else url in
  let url :=
    if ignore_slash
    then if PyStr.contains "/"
              (PyStr.slice_from (PyStr.find url "://" + 3)%Z url)
         then PyStr.rstrip_chars "/" url
         else url
    else url in
  url.

(** One value of [processed_items]. *)
Record group : Type := Group { original : bookmark; removed : list bookmark }.

(** [processed_items]: a [dict], which iterates in insertion order. *)
Abbreviation items := (list (CanonicalKey * group)).

(** [processed_items.get(key)] *)
Fixpoint lookup (key : CanonicalKey) (d : items) : option group :=
  match d with
  | [] => None
  | (k, g) :: d' => if decide (k = key) then Some g else lookup key d'
  end.

(** [processed_items[key]['removed'].append(item)] *)
Fixpoint append_removed (key : CanonicalKey) (item : bookmark) (d : items)
    : items :=
  match d with
  | [] => []
  | (k, g) :: d' =>
      if decide (k = key)
      then (k, Group (original g) (removed g ++ [item])) :: d'
      else (k, g) :: append_removed key item d'
  end.

(** The state of the loop: [unique_bookmarks] and [processed_items]. *)
Abbreviation state := (list bookmark * items)%type.

Section Pass.
(** How a script computes the key of a bookmark. *)
Variable key_of : bookmark -> CanonicalKey.

(** The body of [for url, title in all_bookmarks]. *)
Definition step (st : state) (b : bookmark) : state :=
  let '(unique_bookmarks, processed_items) := st in
  let key := key_of b in
  match lookup key processed_items with
  | None =>
      (unique_bookmarks ++ [b],
       processed_items ++ [(key, Group b [])])
  | Some _ =>
      (unique_bookmarks, append_removed key b processed_items)
  end.

Definition pass (all_bookmarks : list bookmark) : state :=
  fold_left step all_bookmarks ([], []).
End Pass.

(** [key = url if mode == 'url' else (url, title)] *)
Definition key_plain (mode : string) (b : bookmark) : CanonicalKey :=
  if decide (mode = "url") then KUrl b.1 else KPair b.1 b.2.

(** [key = normalized_url_key if mode == 'url'
          else (normalized_url_key, title)] *)
Definition key_normalized (mode : string) (strict_protocol ignore_slash : bool)
    (b : bookmark) : CanonicalKey :=
  let normalized_url_key := normalize_url b.1 strict_protocol ignore_slash in
  if decide (mode = "url") then KUrl normalized_url_key
  else KPair normalized_url_key b.2.

(** [{k: v for k, v in processed_items.items() if v['removed']}] *)
Definition duplicate_groups (processed_items : items) : items :=
  filter (fun kv => removed kv.2 <> []) processed_items.

(** [sum(len(v['removed']) for v in d.values())] *)
Definition total_removed (d : items) : nat :=
  foldr (fun kv acc => length (removed kv.2) + acc)%nat 0%nat d.

(** The stable ascending insertion into a list sorted by [key]: the new
    element, which comes from further left in the input, goes before the
    first element whose key is not smaller. *)
Fixpoint insert_by {A} (key : A -> nat) (x : A) (l : list A) : list A :=
  match l with
  | [] => [x]
  | y :: l' =>
      if (key y <? key x)%nat then y :: insert_by key x l' else x :: l
  end.

(** A stable ascending sort by [key]. *)
Definition sort_by {A} (key : A -> nat) (l : list A) : list A :=
  foldr (fun x acc => insert_by key x acc) [] l.

(** [sorted(l, key=key, reverse=reversed)].  Python sorts stably, and with
    [reverse=True] it reverses the list, sorts it stably in ascending
    order and reverses the result, so that equal elements keep their
    original order. *)
Definition sorted {A} (key : A -> nat) (reversed : bool) (l : list A)
    : list A :=
  if reversed then reverse (sort_by key (reverse l)) else sort_by key l.

(** [sorted_groups] of [generate_report_file]. *)
Definition sorted_groups (duplicate_groups : items) : items :=
  sorted (fun item => length (removed item.2)) true duplicate_groups.

(** What [deduplicate_and_generate_report] hands to its two writers:
    [unique_bookmarks] to [generate_clean_html_file], [duplicate_groups]
    to [generate_report_file], which writes them in the order
    [sorted_groups]. *)
Record result : Type := Result {
  kept : list bookmark;
  groups : items;
  report : items
}.

(** [deduplicate_and_generate_report] of [deduplicate_bookmarks.py], on
    the parsed bookmarks. *)
Definition deduplicate_and_generate_report (mode : string)
    (all_bookmarks : list bookmark) : result :=
  let '(unique_bookmarks, processed_items) :=
    pass (key_plain mode) all_bookmarks in
  let dg := duplicate_groups processed_items in
  Result unique_bookmarks dg (sorted_groups dg).

(** [deduplicate_and_generate_report] of
    [deduplicate_bookmarks_健壮版1.py], on the parsed bookmarks. *)
Definition deduplicate_and_generate_report_robust (mode : string)
    (strict_protocol ignore_slash : bool) (all_bookmarks : list bookmark)
    : result :=
  let '(unique_bookmarks, processed_items) :=
    pass (key_normalized mode strict_protocol ignore_slash) all_bookmarks in
  let dg := duplicate_groups processed_items in
  Result unique_bookmarks dg (sorted_groups dg).

End Dedup.

(** ** The event-driven parsers: [compare_bookmarks_流式解析.py] and
       [compare_multi_bookmarks_流式解析.py] *)

Module Stream.

(** The calls [HTMLParser.feed] makes on the handlers, in order.  The
    tag names arrive in lower case; the value of an attribute written
    without [=value] is [None]. *)
Inductive event : Type :=
| StartTag (tag : string) (attrs : list (string * option string))
| Data (data : string)
| EndTag (tag : string).

Global Instance event_eq_dec : EqDecision event.
Proof. solve_decision. Defined.

(** The two scripts share the class [BookmarkParser] up to the branch of
    [handle_endtag] for [h3]. *)
Inductive script : Type := TwoFile | MultiFile.

(** The attributes of a [BookmarkParser] instance.  [current_url] is
    [None] when the [href] attribute has no value. *)
Record BookmarkParser : Type := MkParser {
  mode : string;
  filter_enabled : bool;
  decode_enabled : bool;
  bookmarks : list CanonicalKey;
  folders : gset string;
  total_folder_counter : nat;
  is_in_a_tag : bool;
  is_in_h3_tag : bool;
  current_url : option string;
  current_title : string;
  current_folder : string
}.

(** [__init__] *)
Definition init (mode : string) (filter_enabled decode_enabled : bool)
    : BookmarkParser :=
  MkParser mode filter_enabled decode_enabled [] ∅ 0 false false
    (Some "") "" "".

(** [dict(attrs)]: a later pair overrides an earlier one. *)
Definition dict_of (attrs : list (string * option string))
    : gmap string (option string) :=
  fold_left (fun d kv => <[kv.1 := kv.2]> d) attrs ∅.

(** [attr_dict.get('href', '')] *)
Definition get_href (attrs : list (string * option string)) : option string :=
  match dict_of attrs !! "href" with
  | Some v => v
  | None => Some ""
  end.

Definition handle_starttag (p : BookmarkParser) (tag : string)
    (attrs : list (string * option string)) : BookmarkParser :=
  if decide (tag = "a") then
    MkParser (mode p) (filter_enabled p) (decode_enabled p) (bookmarks p)
      (folders p) (total_folder_counter p)
      true (is_in_h3_tag p) (get_href attrs) (current_title p)
      (current_folder p)
  else if decide (tag = "h3") then
    MkParser (mode p) (filter_enabled p) (decode_enabled p) (bookmarks p)
      (folders p) (total_folder_counter p)
      (is_in_a_tag p) true (current_url p) (current_title p)
      (current_folder p)
  else p.

Definition handle_data (p : BookmarkParser) (data : string) : BookmarkParser :=
  if is_in_a_tag p then
    MkParser (mode p) (filter_enabled p) (decode_enabled p) (bookmarks p)
      (folders p) (total_folder_counter p)
      (is_in_a_tag p) (is_in_h3_tag p) (current_url p)
      (current_title p +:+ data) (current_folder p)
  else if is_in_h3_tag p then
    MkParser (mode p) (filter_enabled p) (decode_enabled p) (bookmarks p)
      (folders p) (total_folder_counter p)
      (is_in_a_tag p) (is_in_h3_tag p) (current_url p)
      (current_title p) (current_folder p +:+ data)
  else p.

(** The prefixes of the protocol filter. *)
Definition allowed_prefixes : list string := ["http"; "https"; "ftp"].

Section Handlers.
(** [urllib.parse.unquote], a function of the standard library. *)
Variable unquote : string -> string.

(** The bookmarks list after the branch [if self.current_url:] of
    [handle_endtag], for a non-empty [current_url]. *)
Definition add_bookmark (p : BookmarkParser) (current_url : string)
    : list CanonicalKey :=
  let normalized_url :=
    if decode_enabled p then unquote current_url else current_url in
  let should_add :=
    if filter_enabled p
    then if negb (PyStr.startswith_any allowed_prefixes
                    (PyStr.lower normalized_url))
         then false else true
    else true in
  if should_add then
    let clean_title := PyStr.strip (current_title p) in
    if decide (mode p = "url") then
      bookmarks p ++ [KUrl normalized_url]
    else if decide (mode p = "url-title") then
      bookmarks p ++ [KPair normalized_url clean_title]
    else bookmarks p
  else bookmarks p.

Definition handle_endtag (sc : script) (p : BookmarkParser) (tag : string)
    : BookmarkParser :=
  if decide (tag = "a") then
    let bookmarks' :=
      match current_url p with
      | Some (String c u) => add_bookmark p (String c u)
      | _ => bookmarks p
      end in
    MkParser (mode p) (filter_enabled p) (decode_enabled p) bookmarks'
      (folders p) (total_folder_counter p)
      false (is_in_h3_tag p) (Some "") "" (current_folder p)
  else if decide (tag = "h3") then
    let folder_name := PyStr.strip (current_folder p) in
    let folders' :=
      match sc with
      | TwoFile => {[folder_name]} ∪ folders p
      | MultiFile =>
          if PyStr.truthy folder_name
          then {[folder_name]} ∪ folders p
          else folders p
      end in
    MkParser (mode p) (filter_enabled p) (decode_enabled p) (bookmarks p)
      folders' (S (total_folder_counter p))
      (is_in_a_tag p) false (current_url p) (current_title p) ""
  else p.

Definition handle (sc : script) (p : BookmarkParser) (e : event)
    : BookmarkParser :=
  match e with
  | StartTag tag attrs => handle_starttag p tag attrs
  | Data data => handle_data p data
  | EndTag tag => handle_endtag sc p tag
  end.

(** [parser.feed(content)], on the events of [content]. *)
Definition feed (sc : script) (p : BookmarkParser) (content : list event)
    : BookmarkParser :=
  fold_left (handle sc) content p.

(** What [parse_bookmarks_file_fast] returns:
    [bookmarks_set, total_bookmarks_count, folders_set,
     total_folders_count]. *)
Record file_data : Type := FileData {
  b_set : gset CanonicalKey;
  b_total : nat;
  f_set : gset string;
  f_total : nat
}.

Definition parse_bookmarks_file_fast (sc : script) (mode : string)
    (filter_enabled decode_enabled : bool) (content : list event)
    : file_data :=
  let parser := feed sc (init mode filter_enabled decode_enabled) content in
  let all_valid_bookmarks := bookmarks parser in
  FileData (list_to_set all_valid_bookmarks) (length all_valid_bookmarks)
    (folders parser) (total_folder_counter parser).
End Handlers.

(** [analyze_multiple_files] in the analysis mode ['intersection'], on the
    values of [all_data]: [common_bookmarks] and [common_folders]; [None]
    when the function returns early because fewer than two files were
    parsed. *)
Definition analyze_multiple_files (all_data : list file_data)
    : option (gset CanonicalKey * gset string) :=
  if (length all_data <? 2)%nat then None
  else match all_data with
       | [] => None
       | first :: others =>
           Some (fold_left
                   (fun common d =>
                      (common.1 ∩ b_set d, common.2 ∩ f_set d))
                   others (b_set first, f_set first))
       end.

End Stream.

(** ** The regular-expression parser of [compare_bookmarks.py] and
       [compare_multi_bookmarks.py] *)

Module Regex.

(** [<h3[^>]*>(.*?)</h3>] *)
Definition folder_pattern : Re.regex :=
  Re.cat [Re.lits "<h3"; Re.Star Re.not_gt; Re.Lit ">"%char;
          Re.Group (Re.Lazy Re.dot); Re.lits "</h3>"].

(** The pattern of an opening anchor up to the closing quote of its
    [href]: [<a], [\s+], [[^>]*], [href=], a quote, a lazy group, a
    quote. *)
Definition url_pattern : Re.regex :=
  Re.cat [Re.lits "<a"; Re.Cls PyStr.is_space; Re.Star PyStr.is_space;
          Re.Star Re.not_gt; Re.lits "href="; Re.Cls Re.quote;
          Re.Group (Re.Lazy Re.dot); Re.Cls Re.quote].

(** [url_pattern] followed by [[^>]*>(.*?)</a>]. *)
Definition bookmark_pattern : Re.regex :=
  Re.cat [Re.lits "<a"; Re.Cls PyStr.is_space; Re.Star PyStr.is_space;
          Re.Star Re.not_gt; Re.lits "href="; Re.Cls Re.quote;
          Re.Group (Re.Lazy Re.dot); Re.Cls Re.quote;
          Re.Star Re.not_gt; Re.Lit ">"%char;
          Re.Group (Re.Lazy Re.dot); Re.lits "</a>"].

(** [<.*?>] *)
Definition tag_pattern : Re.regex :=
  Re.cat [Re.Lit "<"%char; Re.Lazy Re.dot; Re.Lit ">"%char].

(** [re.sub(r'<.*?>', '', text).strip()] *)
Definition clean (text : string) : string :=
  PyStr.strip (Re.sub false tag_pattern "" text).

(** [parse_bookmarks_file(filepath, mode)] on the content of the file:
    the sets [bookmarks] and [folders]. *)
Definition parse_bookmarks_file (content mode : string)
    : gset CanonicalKey * gset string :=
  let raw_folders := Re.findall true folder_pattern content in
  let folders : gset string :=
    list_to_set (flat_map (fun m => match m with
                                    | [f] => [clean f]
                                    | _ => []
                                    end) raw_folders) in
  let bookmarks : gset CanonicalKey :=
    if decide (mode = "url") then
      list_to_set (flat_map (fun m => match m with
                                      | [url] => [KUrl url]
                                      | _ => []
                                      end)
                     (Re.findall true url_pattern content))
    else if decide (mode = "url-title") then
      list_to_set (flat_map (fun m => match m with
                                      | [url; title] =>
                                          [KPair url (clean title)]
                                      | _ => []
                                      end)
                     (Re.findall true bookmark_pattern content))
    else ∅ in
  (bookmarks, folders).

(** [set.intersection] applied to the unpacked list of sets; without an
    argument the call raises [TypeError]. *)
Definition set_intersection `{Countable K} (sets : list (gset K))
    : option (gset K) :=
  match sets with
  | [] => None
  | s :: others => Some (fold_left (fun acc t => acc ∩ t) others s)
  end.

(** [common_bookmarks] and [common_folders] of [generate_multi_report],
    on the values of [all_data]. *)
Definition generate_multi_report
    (all_data : list (gset CanonicalKey * gset string))
    : option (gset CanonicalKey * gset string) :=
  match set_intersection (fst <$> all_data),
        set_intersection (snd <$> all_data) with
  | Some b, Some f => Some (b, f)
  | _, _ => None
  end.

End Regex.

(** ** Auxiliary notions used in the statements *)

(** The markup of Scenario 5: an anchor with a quoted [href] and a title,
    never closed. *)
Definition scenario5 : string :=
  "<a href=" +:+ String "034"%char "http://x.com"
  +:+ String "034"%char ">Title".

(** The natural ordering of the keys: strings by code point, tuples
    lexicographically.  Python does not order a string against a tuple. *)
Definition key_ltb (k1 k2 : CanonicalKey) : bool :=
  match k1, k2 with
  | KUrl u1, KUrl u2 => String.ltb u1 u2
  | KPair u1 t1, KPair u2 t2 =>
      String.ltb u1 u2 || (String.eqb u1 u2 && String.ltb t1 t2)
  | _, _ => false
  end.

(** The elements of a list in the order of their first occurrence. *)
Fixpoint first_seen `{EqDecision A} (l : list A) : list A :=
  match l with
  | [] => []
  | x :: l' => x :: filter (fun y => y <> x) (first_seen l')
  end.

(** The number of removed occurrences of a reported group. *)
Definition removed_count (item : CanonicalKey * Dedup.group) : nat :=
  length (Dedup.removed item.2).

(** The bookmarks of a list whose key is [k], in the order of the list. *)
Definition occurrences (key_of : bookmark -> CanonicalKey) (k : CanonicalKey)
    (l : list bookmark) : list bookmark :=
  filter (fun b => key_of b = k) l.

(** First-seen deduplication on the key [k]: the first occurrence of [k]
    is the one bookmark of that key in [unique_bookmarks], and the later
    occurrences, when there are any, are the [removed] list of the group of
    [k], whose [original] is the first occurrence. *)
Definition first_seen_policy (key_of : bookmark -> CanonicalKey)
    (all_bookmarks : list bookmark) (k : CanonicalKey)
    (unique_bookmarks : list bookmark) (duplicate_groups : Dedup.items)
    : Prop :=
  exists kept later,
    occurrences key_of k all_bookmarks = kept :: later /\
    occurrences key_of k unique_bookmarks = [kept] /\
    Dedup.lookup k duplicate_groups =
      if decide (later = []) then None else Some (Dedup.Group kept later).

(** What the report owes its reader: the groups of [duplicate_groups],
    all of them, by decreasing number of removed occurrences, the groups
    with the same number in the order of [duplicate_groups], which is the
    order in which the pass first saw their keys. *)
Definition report_order (key_of : bookmark -> CanonicalKey)
    (all_bookmarks : list bookmark) (duplicate_groups report : Dedup.items)
    : Prop :=
  report ≡ₚ duplicate_groups /\
  StronglySorted (fun a b => removed_count b <= removed_count a)%nat report /\
  (forall n : nat,
      filter (fun item => removed_count item = n) report
      = filter (fun item => removed_count item = n) duplicate_groups) /\
  (forall n : nat,
      (filter (fun item => removed_count item = n) report).*1
      `sublist_of` first_seen (key_of <$> all_bookmarks)).

(** The tie-break of the specification: of two reported groups with the
    same number of removed occurrences, the one with the smaller key comes
    first. *)
Definition ties_by_key (report : Dedup.items) : Prop :=
  forall (i j : nat) (a b : CanonicalKey * Dedup.group),
    report !! i = Some a -> report !! j = Some b ->
    removed_count a = removed_count b ->
    key_ltb a.1 b.1 = true ->
    (i < j)%nat.

(** The URL of a key. *)
Definition key_url (k : CanonicalKey) : string :=
  match k with KUrl u => u | KPair u _ => u end.

(** The url after the protocol step of [normalize_url]. *)
Definition after_protocol (url : string) (strict_protocol : bool) : string :=
  if negb strict_protocol
  then Re.sub_bos false Dedup.https_re "" url else url.

(** The configuration of a parser. *)
Definition config (p : Stream.BookmarkParser) : string * bool * bool :=
  (Stream.mode p, Stream.filter_enabled p, Stream.decode_enabled p).

(** The test of the protocol filter on a key. *)
Definition passes_filter (k : CanonicalKey) : bool :=
  PyStr.startswith_any Stream.allowed_prefixes (PyStr.lower (key_url k)).

(** [t] is what is left of [s] after some prefix. *)
Definition suffix_of (t s : string) : Prop := exists pre, s = pre +:+ t.

(** ** The rest of the scripts the deduplication and the comparison run *)

(** *** Reading and writing in the deduplication scripts *)

Module DedupFile.

(** [parse_bookmarks(filepath)] of [deduplicate_bookmarks.py], on the
    content of the file: one pair per match of the anchor pattern, the
    title without its tags and the white space around it. *)
Definition parse_bookmarks (content : string) : list bookmark :=
  flat_map (fun m => match m with
                     | [url; title] => [(url, Regex.clean title)]
                     | _ => []
                     end)
    (Re.findall true Regex.bookmark_pattern content).

(** The anchor pattern and the tag pattern under [re.DOTALL]. *)
Definition bookmark_pattern_dotall : Re.regex :=
  Re.cat [Re.lits "<a"; Re.Cls PyStr.is_space; Re.Star PyStr.is_space;
          Re.Star Re.not_gt; Re.lits "href="; Re.Cls Re.quote;
          Re.Group (Re.Lazy Re.dot_all); Re.Cls Re.quote;
          Re.Star Re.not_gt; Re.Lit ">"%char;
          Re.Group (Re.Lazy Re.dot_all); Re.lits "</a>"].

Definition tag_pattern_dotall : Re.regex :=
  Re.cat [Re.Lit "<"%char; Re.Lazy Re.dot_all; Re.Lit ">"%char].

Section Robust.
(** [html.unescape] and [urllib.parse.unquote], functions of the standard
    library. *)
Variable html_unescape : string -> string.
Variable unquote : string -> string.

(** [parse_bookmarks(filepath, decode_enabled)] of
    [deduplicate_bookmarks_健壮版1.py], on the content of the file. *)
Definition parse_bookmarks_robust (content : string) (decode_enabled : bool)
    : list bookmark :=
  flat_map
    (fun m =>
       match m with
       | [raw_url; raw_title] =>
           if PyStr.truthy raw_url then
             let url :=
               if decode_enabled then unquote (html_unescape raw_url)
               else raw_url in
             let title :=
               if decode_enabled then html_unescape raw_title
               else raw_title in
             let clean_title :=
               PyStr.strip (Re.sub false tag_pattern_dotall "" title) in
             [(url, clean_title)]
           else []
       | _ => []
       end)
    (Re.findall true bookmark_pattern_dotall content).
End Robust.

(** [s.replace(old, new)] for a one-character [old]. *)
Fixpoint replace_char (old : ascii) (new s : string) : string :=
  match s with
  | EmptyString => EmptyString
  | String c s' =>
      if Ascii.eqb c old then new +:+ replace_char old new s'
      else String c (replace_char old new s')
  end.

(** The double quote and the line feed as strings. *)
Definition dquote : string := String "034"%char "".
Definition newline : string := String "010"%char "".

(** [escaped_url] and [escaped_name] of [generate_clean_html_file] in
    [deduplicate_bookmarks.py]. *)
Definition escaped_url (url : string) : string :=
  replace_char "034"%char "&quot;" (replace_char "&"%char "&amp;" url).

Definition escaped_name (name : string) : string :=
  replace_char ">"%char "&gt;"
    (replace_char "<"%char "&lt;" (replace_char "&"%char "&amp;" name)).

(** One line of the cleaned file. *)
Definition bookmark_line (b : bookmark) : string :=
  "    <DT><A HREF=" +:+ dquote +:+ escaped_url b.1 +:+ dquote +:+ ">"
  +:+ escaped_name b.2 +:+ "</A>" +:+ newline.

(** What [generate_clean_html_file] of [deduplicate_bookmarks.py] writes,
    one element per call of [f.write]. *)
Definition generate_clean_html_file (unique_bookmarks : list bookmark)
    (mode : string) : list string :=
  ["<!DOCTYPE NETSCAPE-Bookmark-file-1>" +:+ newline;
   "<META HTTP-EQUIV=" +:+ dquote +:+ "Content-Type" +:+ dquote
   +:+ " CONTENT=" +:+ dquote +:+ "text/html; charset=UTF-8" +:+ dquote
   +:+ ">" +:+ newline;
   "<TITLE>Bookmarks (Cleaned - " +:+ mode +:+ " mode)</TITLE>" +:+ newline;
   "<H1>Bookmarks (Cleaned - " +:+ mode +:+ " mode)</H1>" +:+ newline;
   "<DL><p>" +:+ newline]
  ++ (bookmark_line <$> unique_bookmarks)
  ++ ["</DL><p>" +:+ newline].

End DedupFile.

(** *** The comparison of two files: [generate_report] *)

Module Compare.

(** [bookmarks_only_in_1], [bookmarks_only_in_2], [folders_only_in_1] and
    [folders_only_in_2]. *)
Record differences : Type := Differences {
  bookmarks_only_in_1 : gset CanonicalKey;
  bookmarks_only_in_2 : gset CanonicalKey;
  folders_only_in_1 : gset string;
  folders_only_in_2 : gset string
}.

(** The four set differences both [generate_report] functions compute. *)
Definition compare (bookmarks1 : gset CanonicalKey) (folders1 : gset string)
    (bookmarks2 : gset CanonicalKey) (folders2 : gset string) : differences :=
  Differences (bookmarks1 ∖ bookmarks2) (bookmarks2 ∖ bookmarks1)
    (folders1 ∖ folders2) (folders2 ∖ folders1).

(** [generate_report] of [compare_bookmarks.py], on the contents of the
    two files. *)
Definition generate_report (content1 content2 mode : string) : differences :=
  let '(bookmarks1, folders1) := Regex.parse_bookmarks_file content1 mode in
  let '(bookmarks2, folders2) := Regex.parse_bookmarks_file content2 mode in
  compare bookmarks1 folders1 bookmarks2 folders2.

(** [generate_report] of [compare_bookmarks_流式解析.py], on the events of
    the two files. *)
Definition generate_report_fast (unquote : string -> string)
    (content1 content2 : list Stream.event) (mode : string)
    (filter_enabled decode_enabled : bool) : differences :=
  let d1 := Stream.parse_bookmarks_file_fast unquote Stream.TwoFile mode
              filter_enabled decode_enabled content1 in
  let d2 := Stream.parse_bookmarks_file_fast unquote Stream.TwoFile mode
              filter_enabled decode_enabled content2 in
  compare (Stream.b_set d1) (Stream.f_set d1)
    (Stream.b_set d2) (Stream.f_set d2).

End Compare.

(** *** The items only one file has *)

Module Unique.

(** The inner loop of the analysis mode ['unique'] of
    [analyze_multiple_files]: the union of the sets at every index but
    [i]; [j] is the index of the head of the list. *)
Fixpoint union_except `{Countable K} (i j : nat) (sets : list (gset K))
    (acc : gset K) : gset K :=
  match sets with
  | [] => acc
  | s :: others =>
      union_except i (S j) others (if decide (i = j) then acc else acc ∪ s)
  end.

(** [analyze_multiple_files] in the analysis mode ['unique'], on the
    values of [all_data]: for each file its [unique_bookmarks] and
    [unique_folders]; [None] when fewer than two files were parsed. *)
Definition analyze_multiple_files (all_data : list Stream.file_data)
    : option (list (gset CanonicalKey * gset string)) :=
  if (length all_data <? 2)%nat then None
  else Some (imap
               (fun i d =>
                  let other_bookmarks_union :=
                    union_except i 0 (Stream.b_set <$> all_data) ∅ in
                  let other_folders_union :=
                    union_except i 0 (Stream.f_set <$> all_data) ∅ in
                  (Stream.b_set d ∖ other_bookmarks_union,
                   Stream.f_set d ∖ other_folders_union))
               all_data).

(** [all_data[fp] = value] on a [dict] kept as the list of its items. *)
Fixpoint dict_set {V} (fp : string) (value : V) (d : list (string * V))
    : list (string * V) :=
  match d with
  | [] => [(fp, value)]
  | (f, v) :: d' =>
      if decide (f = fp) then (f, value) :: d'
      else (f, v) :: dict_set fp value d'
  end.

(** [all_data[fp]]; [None] stands for [KeyError]. *)
Fixpoint dict_get {V} (fp : string) (d : list (string * V)) : option V :=
  match d with
  | [] => None
  | (f, v) :: d' => if decide (f = fp) then Some v else dict_get fp d'
  end.

Section MultiReport.
(** What [parse_bookmarks_file] returns for each path: the files on disk
    do not change during the run. *)
Variable parsed : string -> gset CanonicalKey * gset string.

(** [all_data] of [generate_multi_report]. *)
Definition all_data_of (filepaths : list string)
    : list (string * (gset CanonicalKey * gset string)) :=
  fold_left (fun d fp => dict_set fp (parsed fp) d) filepaths [].

(** [unique_items[fp]] of [generate_multi_report]. *)
Definition unique_items (filepaths : list string) (fp : string)
    : option (gset CanonicalKey * gset string) :=
  let all_data := all_data_of filepaths in
  let other_bookmarks_union : gset CanonicalKey :=
    ⋃ (flat_map (fun fd => if decide (fd.1 <> fp) then [fd.2.1] else [])
         all_data) in
  let other_folders_union : gset string :=
    ⋃ (flat_map (fun fd => if decide (fd.1 <> fp) then [fd.2.2] else [])
         all_data) in
  match dict_get fp all_data with
  | Some d => Some (d.1 ∖ other_bookmarks_union, d.2 ∖ other_folders_union)
  | None => None
  end.
End MultiReport.

End Unique.

(** *** Notions used in the further statements *)

(** The text after the first [>] of [t], when only characters of the
    class [p] come before it: what the pattern of a tag consumes after
    its [<]. *)
Fixpoint tag_rest (p : ascii -> bool) (t : string) : option string :=
  match t with
  | EmptyString => None
  | String c t' =>
      if Ascii.eqb c ">"%char then Some t'
      else if p c then tag_rest p t' else None
  end.

(** The pattern of a tag over the class [p]. *)
Definition tag_over (p : ascii -> bool) : Re.regex :=
  Re.cat [Re.Lit "<"%char; Re.Lazy p; Re.Lit ">"%char].

(** No tag over [p] starts anywhere in [s]. *)
Definition tag_free (p : ascii -> bool) (s : string) : Prop :=
  forall u, suffix_of u s -> Re.re_match false (tag_over p) u = None.

(** The first character of a string, if any. *)
Definition first (s : string) : option ascii :=
  match s with EmptyString => None | String c _ => Some c end.

(** No white space at either end. *)
Definition stripped (s : string) : Prop :=
  (forall c, first s = Some c -> PyStr.is_space c = false) /\
  (forall c, PyStr.last s = Some c -> PyStr.is_space c = false).

(** The keys a mode may produce. *)
Definition key_of_mode (mode : string) (k : CanonicalKey) : Prop :=
  match k with
  | KUrl _ => mode = "url"
  | KPair _ _ => mode = "url-title"
  end.

(** The title of a key, the empty string for a key without one. *)
Definition key_title (k : CanonicalKey) : string :=
  match k with KUrl _ => "" | KPair _ t => t end.

(** An event other than text. *)
Definition is_markup (e : Stream.event) : bool :=
  match e with Stream.Data _ => false | _ => true end.

(** The parser [p] with the empty name taken out of its folder set. *)
Definition without_empty_folder (p : Stream.BookmarkParser)
    : Stream.BookmarkParser :=
  Stream.MkParser (Stream.mode p) (Stream.filter_enabled p)
    (Stream.decode_enabled p) (Stream.bookmarks p)
    (Stream.folders p ∖ {[""]}) (Stream.total_folder_counter p)
    (Stream.is_in_a_tag p) (Stream.is_in_h3_tag p) (Stream.current_url p)
    (Stream.current_title p) (Stream.current_folder p).

(** The parser [p] with the protocol filter switched on and applied to
    the bookmarks it holds. *)
Definition filtered (p : Stream.BookmarkParser) : Stream.BookmarkParser :=
  Stream.MkParser (Stream.mode p) true
    (Stream.decode_enabled p)
    (filter (fun k => passes_filter k = true) (Stream.bookmarks p))
    (Stream.folders p) (Stream.total_folder_counter p)
    (Stream.is_in_a_tag p) (Stream.is_in_h3_tag p) (Stream.current_url p)
    (Stream.current_title p) (Stream.current_folder p).

(** Two parsers that agree on their options, on their bookmarks and on
    the url of the open anchor. *)
Definition same_links (p q : Stream.BookmarkParser) : Prop :=
  Stream.mode p = Stream.mode q /\
  Stream.filter_enabled p = Stream.filter_enabled q /\
  Stream.decode_enabled p = Stream.decode_enabled q /\
  Stream.bookmarks p = Stream.bookmarks q /\
  Stream.current_url p = Stream.current_url q.

(** A key a parser may hold in the mode [mode]: of the shape of the mode,
    its title without white space at either end and, when urls are not
    decoded, its url not empty. *)
Definition clean_key (mode : string) (decode_enabled : bool)
    (k : CanonicalKey) : Prop :=
  key_of_mode mode k /\ stripped (key_title k) /\
  (decode_enabled = false -> key_url k <> "").

(** What a comparison owes its reader: [only_a] and [only_b] split the
    two sets [A] and [B] around their common part, and both are empty
    exactly when the sets are equal. *)
Definition splits `{Countable K} (A B only_a only_b : gset K) : Prop :=
  only_a ## only_b /\ only_a ## B /\ only_b ## A /\
  only_a ∪ (A ∩ B) = A /\ only_b ∪ (A ∩ B) = B /\
  (only_a = ∅ /\ only_b = ∅ <-> A = B).

(** [x] belongs to the set at index [i] of [sets] and to no other set of
    the list. *)
Definition only_at `{Countable K} (sets : list (gset K)) (i : nat) (x : K)
    : Prop :=
  (exists s, sets !! i = Some s /\ x ∈ s) /\
  (forall j s, j <> i -> sets !! j = Some s -> x ∉ s).

(** * Properties *)

(** ** The embedding on the scenarios of the specification *)

(** Scenario 1: a url with and without its trailing slash, in mode [url]
    with [ignore_slash]: one kept bookmark, one group with one removed
    occurrence. *)
Example scenario1 :
  Dedup.deduplicate_and_generate_report_robust "url" true true
    [("http://x.com/", "A"); ("http://x.com", "A")]
  = Dedup.Result
      [("http://x.com/", "A")]
      [(KUrl "http://x.com",
        Dedup.Group ("http://x.com/", "A") [("http://x.com", "A")])]
      [(KUrl "http://x.com",
        Dedup.Group ("http://x.com/", "A") [("http://x.com", "A")])].
Proof. reflexivity. Qed.

(** [sorted] with [reverse=True] keeps equal elements in their order. *)
Example sorted_is_stable :
  Dedup.sorted snd true [("b", 1); ("a", 1); ("c", 2)]%nat
  = [("c", 2); ("b", 1); ("a", 1)]%nat.
Proof. reflexivity. Qed.

(** A later [href] overrides an earlier one, and an [href] without a
    value is [None]. *)
Example get_href_last :
  Stream.get_href [("href", Some "u"); ("x", None); ("href", Some "v")]
  = Some "v" /\
  Stream.get_href [("href", None)] = None /\
  Stream.get_href [("x", Some "1")] = Some "".
Proof. repeat split; reflexivity. Qed.

(** The patterns of the regular-expression parser on a closed anchor
    with two [href]s, in upper and lower case. *)
Example patterns_on_anchor :
  Re.findall true Regex.bookmark_pattern
    "<A  x=1 HREF='u' href='v' ><b>t</b> 2</a>"
  = [["v"; "<b>t</b> 2"]] /\
  Regex.clean "<b>t</b> 2 " = "t 2".
Proof. split; reflexivity. Qed.

(** ** Strings *)

Section StringFacts.

Lemma append_cons (c : ascii) (a b : string) :
  String c a +:+ b = String c (a +:+ b).
Proof. reflexivity. Qed.

Lemma append_nil_l (s : string) : "" +:+ s = s.
Proof. reflexivity. Qed.

Lemma append_nil_r (s : string) : s +:+ "" = s.
Proof.
  induction s as [|c s IH]; [done|]. rewrite append_cons. by rewrite IH.
Qed.

Lemma append_assoc (a b c : string) : (a +:+ b) +:+ c = a +:+ b +:+ c.
Proof.
  induction a as [|x a IH]; [done|]. rewrite !append_cons. by rewrite IH.
Qed.

Lemma startswith_app (p s : string) : PyStr.startswith p (p +:+ s) = true.
Proof.
  induction p as [|c p IH]; [done|].
  rewrite append_cons. cbn. by rewrite Ascii.eqb_refl, IH.
Qed.

Lemma startswith_inv (p s : string) :
  PyStr.startswith p s = true -> exists post, s = p +:+ post.
Proof.
  revert s. induction p as [|c p IH]; intros s H.
  - by exists s.
  - destruct s as [|x s]; [done|]. cbn in H.
    apply andb_true_iff in H as [Hc Hp].
    apply Ascii.eqb_eq in Hc as ->.
    destruct (IH _ Hp) as [post ->]. by exists post.
Qed.

Lemma contains_cons_false (sub : string) (c : ascii) (s : string) :
  PyStr.contains sub (String c s) = false ->
  PyStr.startswith sub (String c s) = false /\ PyStr.contains sub s = false.
Proof. cbn [PyStr.contains]. intros H. by apply orb_false_iff in H. Qed.

(** [find] answers [-1] when [sub in s] is false. *)
Lemma find_from_none (sub s : string) (i : nat) :
  PyStr.contains sub s = false -> PyStr.find_from sub s i = (-1)%Z.
Proof.
  revert i. induction s as [|c s IH]; intros i Hno.
  - cbn in Hno |- *. apply orb_false_iff in Hno as [-> _]. done.
  - apply contains_cons_false in Hno as [Hs Hc].
    cbn [PyStr.find_from]. rewrite Hs. by apply IH.
Qed.

Lemma find_none (s sub : string) :
  PyStr.contains sub s = false -> PyStr.find s sub = (-1)%Z.
Proof. apply find_from_none. Qed.

Lemma drop_app (a b : string) (n : nat) :
  PyStr.drop (PyStr.len a + n) (a +:+ b) = PyStr.drop n b.
Proof.
  unfold PyStr.len. induction a as [|c a IH]; [done|].
  rewrite append_cons. cbn. apply IH.
Qed.

(** The first [://] of [scheme://host] comes right after a scheme
    without a slash. *)
Lemma find_from_separator (scheme host : string) (i : nat) :
  PyStr.contains "/" scheme = false ->
  PyStr.find_from "://" (scheme +:+ "://" +:+ host) i
  = Z.of_nat (i + PyStr.len scheme).
Proof.
  revert i. induction scheme as [|c s IH]; intros i Hno.
  - cbn. f_equal. lia.
  - apply contains_cons_false in Hno as [Hc Hs].
    rewrite append_cons. cbn [PyStr.find_from].
    assert (PyStr.startswith "://" (String c (s +:+ "://" +:+ host)) = false)
      as ->.
    { cbn [PyStr.startswith]. apply andb_false_iff. right.
      destruct s as [|d s'].
      - done.
      - apply contains_cons_false in Hs as [Hd _].
        rewrite append_cons. cbn [PyStr.startswith] in Hd |- *.
        rewrite andb_true_r in Hd. by rewrite Hd. }
    rewrite IH by done. unfold PyStr.len. cbn [String.length]. f_equal. lia.
Qed.

(** [rstrip] removes trailing characters of the set only ... *)
Lemma rstrip_slash_decompose (s : string) :
  exists n, s = PyStr.rstrip_chars "/" s +:+ PyStr.replicate n "/"%char.
Proof.
  induction s as [|c s [n IH]].
  - by exists 0%nat.
  - cbn [PyStr.rstrip_chars].
    destruct (PyStr.rstrip_chars "/" s) as [|d r] eqn:E.
    + cbn [PyStr.mem_char]. rewrite orb_false_r.
      destruct (Ascii.eqb_spec c "/"%char) as [->|Hne].
      * exists (S n). rewrite append_nil_l in IH |- *.
        cbn [PyStr.replicate]. by rewrite <- IH.
      * exists n. rewrite append_cons. by rewrite <- IH.
    + exists n. rewrite append_cons. by rewrite <- IH.
Qed.

(** ... and all of them. *)
Lemma rstrip_slash_last (s : string) :
  PyStr.last (PyStr.rstrip_chars "/" s) <> Some "/"%char.
Proof.
  induction s as [|c s IH]; [done|].
  cbn [PyStr.rstrip_chars].
  destruct (PyStr.rstrip_chars "/" s) as [|d r] eqn:E.
  - cbn [PyStr.mem_char]. rewrite orb_false_r.
    destruct (Ascii.eqb_spec c "/"%char) as [->|Hne]; [done|].
    cbn. congruence.
  - done.
Qed.

End StringFacts.

(** ** URL normalisation *)

Section Normalisation.

Import Dedup.

Ltac step_match :=
  match goal with
  | |- context [match ?s with EmptyString => _ | String _ _ => _ end] =>
      is_var s; destruct s; cbn -[Ascii.eqb]; try reflexivity
  | |- context [Ascii.eqb ?a ?b] =>
      destruct (Ascii.eqb a b); cbn -[Ascii.eqb]; try reflexivity
  end.

(** What the pattern [^https?://] matches. *)
Lemma https_match (url : string) :
  Re.re_match false https_re url =
    if PyStr.startswith "https://" url then Some (PyStr.drop 8 url, [])
    else if PyStr.startswith "http://" url then Some (PyStr.drop 7 url, [])
    else None.
Proof.
  unfold Re.re_match, https_re, Re.cat. cbn -[Ascii.eqb].
  repeat step_match.
Qed.

Lemma sub_bos_http (rest : string) :
  Re.sub_bos false https_re "" ("http://" +:+ rest) = rest.
Proof. reflexivity. Qed.

Lemma sub_bos_https (rest : string) :
  Re.sub_bos false https_re "" ("https://" +:+ rest) = rest.
Proof. reflexivity. Qed.

(** A url that starts with neither prefix, in lower case, keeps its
    head. *)
Lemma sub_bos_other (url : string) :
  PyStr.startswith "http://" url = false ->
  PyStr.startswith "https://" url = false ->
  Re.sub_bos false https_re "" url = url.
Proof.
  intros H1 H2. unfold Re.sub_bos. by rewrite https_match, H2, H1.
Qed.

Lemma normalize_url_unfold (url : string)
    (strict_protocol ignore_slash : bool) :
  normalize_url url strict_protocol ignore_slash =
    let u := after_protocol url strict_protocol in
    if ignore_slash
    then if PyStr.contains "/" (PyStr.slice_from (PyStr.find u "://" + 3)%Z u)
         then PyStr.rstrip_chars "/" u
         else u
    else u.
Proof. reflexivity. Qed.

(** C10: when the url that reaches the slash step holds no [://], [find]
    answers [-1], so the test of [normalize_url] is ['/' in url[2:]]: the
    trailing slashes go only if a slash occurs at index 2 or later.  The
    url ['a/'] comes back unchanged and ['ab/'] loses its slash. *)
Theorem normalize_url_without_separator (url : string)
    (strict_protocol : bool) :
  let u := after_protocol url strict_protocol in
  PyStr.contains "://" u = false ->
  (PyStr.find u "://" + 3)%Z = 2%Z /\
  PyStr.slice_from (PyStr.find u "://" + 3)%Z u = PyStr.drop 2 u /\
  normalize_url url strict_protocol true =
    (if PyStr.contains "/" (PyStr.drop 2 u)
     then PyStr.rstrip_chars "/" u else u) /\
  normalize_url "a/" strict_protocol true = "a/" /\
  normalize_url "ab/" strict_protocol true = "ab".
Proof.
  intros u Hno. pose proof (find_none u "://" Hno) as Hf.
  split; [rewrite Hf; done|].
  split; [rewrite Hf; done|].
  split; [|by destruct strict_protocol].
  rewrite normalize_url_unfold. fold u. cbv zeta. by rewrite Hf.
Qed.

Lemma normalize_url_without_separator_witness :
  normalize_url "ab/" false true = PyStr.rstrip_chars "/" "ab/" /\
  normalize_url "a/" true true = "a/".
Proof.
  split.
  - apply (normalize_url_without_separator "ab/" false). reflexivity.
  - apply (normalize_url_without_separator "a/" true). reflexivity.
Defined.

(** C2, as the specification states it, fails: two trailing slashes are
    both removed, so the result is not the url less one slash. *)
Lemma normalize_url_one_slash_counterexample :
  normalize_url "http://a.com/b//" true true = "http://a.com/b" /\
  normalize_url "http://a.com/b//" true true +:+ "/" <> "http://a.com/b//".
Proof. split; [reflexivity | discriminate]. Qed.

(** C2, amended: with [ignore_slash], [normalize_url] removes trailing
    slashes only; when a slash occurs after the first [://] (from index 2
    when there is none) it removes all of them, otherwise it leaves the
    url as it is.  A bare [scheme://host] is unchanged under
    [strict_protocol]. *)
Theorem normalize_url_trailing_slashes (url : string) (strict_protocol : bool) :
  let u := after_protocol url strict_protocol in
  let r := normalize_url url strict_protocol true in
  let test :=
    PyStr.contains "/" (PyStr.slice_from (PyStr.find u "://" + 3)%Z u) in
  (exists n, u = r +:+ PyStr.replicate n "/"%char) /\
  (test = true -> PyStr.last r <> Some "/"%char) /\
  (test = false -> r = u) /\
  (forall scheme host : string,
      url = scheme +:+ "://" +:+ host ->
      strict_protocol = true ->
      PyStr.contains "/" scheme = false ->
      PyStr.contains "/" host = false ->
      r = url).
Proof.
  intros u r test. subst r. rewrite normalize_url_unfold.
  fold u. cbv zeta. fold test.
  split; [|split; [|split]].
  - destruct test.
    + apply rstrip_slash_decompose.
    + exists 0%nat. by rewrite append_nil_r.
  - intros ->. apply rstrip_slash_last.
  - by intros ->.
  - intros scheme host -> -> Hs Hh. subst test u.
    unfold after_protocol. cbn [negb].
    unfold PyStr.find. rewrite find_from_separator by done.
    unfold PyStr.slice_from.
    destruct (Z.ltb_spec (Z.of_nat (0 + PyStr.len scheme) + 3) 0); [lia|].
    replace (Z.to_nat (Z.of_nat (0 + PyStr.len scheme) + 3))
      with (PyStr.len scheme + 3)%nat by lia.
    rewrite drop_app. change (PyStr.drop 3 ("://" +:+ host)) with host.
    by rewrite Hh.
Qed.

Lemma normalize_url_trailing_slashes_witness :
  PyStr.last (normalize_url "http://a.com/b//" true true) <> Some "/"%char /\
  normalize_url "http://a.com" true true = "http://a.com".
Proof.
  split.
  - apply (normalize_url_trailing_slashes "http://a.com/b//" true).
    reflexivity.
  - apply (proj2 (proj2 (proj2
             (normalize_url_trailing_slashes "http://a.com" true)))
             "http" "a.com"); reflexivity.
Defined.

(** C3, as the specification states it, fails: the scheme is matched in
    lower case only, so [HTTP://x.com] and [http://x.com] get different
    keys. *)
Lemma normalize_url_scheme_case_counterexample :
  normalize_url "HTTP://x.com" false false = "HTTP://x.com" /\
  normalize_url "http://x.com" false false = "x.com" /\
  normalize_url "HTTP://x.com" false false
  <> normalize_url "http://x.com" false false.
Proof. split; [reflexivity | split; [reflexivity | discriminate]]. Qed.

(** C3, amended: without [strict_protocol], [normalize_url] strips a
    leading [http://] or [https://] written in lower case, so the two
    schemes give the same key; a url that starts with neither, in that
    exact case, keeps its head. *)
Theorem normalize_url_collapses_scheme (rest : string) (ignore_slash : bool) :
  normalize_url ("http://" +:+ rest) false ignore_slash
  = normalize_url ("https://" +:+ rest) false ignore_slash /\
  normalize_url ("http://" +:+ rest) false ignore_slash
  = normalize_url rest true ignore_slash /\
  (forall url : string,
      PyStr.startswith "http://" url = false ->
      PyStr.startswith "https://" url = false ->
      normalize_url url false ignore_slash
      = normalize_url url true ignore_slash).
Proof.
  split; [|split].
  - rewrite !normalize_url_unfold. unfold after_protocol. cbn [negb].
    by rewrite sub_bos_http, sub_bos_https.
  - rewrite !normalize_url_unfold. unfold after_protocol. cbn [negb].
    by rewrite sub_bos_http.
  - intros url H1 H2. rewrite !normalize_url_unfold.
    unfold after_protocol. cbn [negb]. by rewrite sub_bos_other.
Qed.

Lemma normalize_url_collapses_scheme_witness :
  normalize_url "HTTP://x.com" false true
  = normalize_url "HTTP://x.com" true true.
Proof.
  apply (proj2 (proj2 (normalize_url_collapses_scheme "" true))
           "HTTP://x.com"); reflexivity.
Defined.

End Normalisation.

(** ** The deduplication pass *)

Section DedupFacts.

Import Dedup.

Variable key_of : bookmark -> CanonicalKey.

Lemma lookup_None (k : CanonicalKey) (d : items) :
  lookup k d = None <-> k ∉ d.*1.
Proof.
  induction d as [|[k' g] d IH]; cbn.
  - split; [intros _; apply not_elem_of_nil | done].
  - rewrite not_elem_of_cons. destruct (decide (k' = k)) as [->|Hne].
    + split; [done|]. by intros [? _].
    + rewrite IH. split; [by split|by intros [_ ?]].
Qed.

Lemma lookup_snoc (k k' : CanonicalKey) (g : group) (d : items) :
  lookup k (d ++ [(k', g)]) =
    match lookup k d with
    | Some g0 => Some g0
    | None => if decide (k' = k) then Some g else None
    end.
Proof.
  induction d as [|[k0 g0] d IH]; cbn; [done|].
  by destruct (decide (k0 = k)).
Qed.

Lemma lookup_append_removed (k k' : CanonicalKey) (b : bookmark) (d : items) :
  lookup k (append_removed k' b d) =
    if decide (k' = k)
    then (fun g => Group (original g) (removed g ++ [b])) <$> lookup k d
    else lookup k d.
Proof.
  induction d as [|[k0 g0] d IH]; cbn.
  - by destruct (decide (k' = k)).
  - destruct (decide (k0 = k')) as [->|Hne]; cbn.
    + by destruct (decide (k' = k)).
    + destruct (decide (k0 = k)) as [->|Hne'].
      * by destruct (decide (k' = k)) as [->|].
      * apply IH.
Qed.

Lemma keys_append_removed (k : CanonicalKey) (b : bookmark) (d : items) :
  (append_removed k b d).*1 = d.*1.
Proof.
  induction d as [|[k0 g0] d IH]; cbn; [done|].
  destruct (decide (k0 = k)); cbn; [done|]. by rewrite IH.
Qed.

Lemma total_removed_cons (kv : CanonicalKey * group) (d : items) :
  total_removed (kv :: d) = (length (removed kv.2) + total_removed d)%nat.
Proof. reflexivity. Qed.

Lemma total_removed_snoc (k : CanonicalKey) (b : bookmark) (d : items) :
  total_removed (d ++ [(k, Group b [])]) = total_removed d.
Proof. unfold total_removed. by rewrite foldr_app. Qed.

Lemma total_removed_append (k : CanonicalKey) (b : bookmark) (d : items) :
  is_Some (lookup k d) ->
  total_removed (append_removed k b d) = S (total_removed d).
Proof.
  induction d as [|[k0 g0] d IH]; intros [g Hg]; [done|].
  cbn [append_removed lookup] in Hg |- *.
  destruct (decide (k0 = k)); rewrite !total_removed_cons; cbn [snd removed].
  - rewrite length_app. cbn. lia.
  - rewrite IH by eauto. lia.
Qed.

Lemma total_removed_duplicate_groups (d : items) :
  total_removed (duplicate_groups d) = total_removed d.
Proof.
  unfold duplicate_groups.
  induction d as [|[k g] d IH]; [done|].
  rewrite filter_cons.
  destruct (decide (removed (k, g).2 <> [])) as [|Hn];
    rewrite !total_removed_cons, IH; [done|].
  cbn [snd] in *. destruct (removed g); [done|]. by destruct Hn.
Qed.

Lemma pass_snoc (l : list bookmark) (b : bookmark) :
  pass key_of (l ++ [b]) = step key_of (pass key_of l) b.
Proof. unfold pass. by rewrite fold_left_app. Qed.

Lemma occurrences_snoc (k : CanonicalKey) (l : list bookmark) (b : bookmark) :
  occurrences key_of k (l ++ [b]) =
    occurrences key_of k l ++ (if decide (key_of b = k) then [b] else []).
Proof.
  unfold occurrences. rewrite filter_app. reflexivity.
Qed.

(** The dictionary after the pass: each key is bound to its first
    occurrence and the list of its later occurrences. *)
Lemma pass_lookup (l : list bookmark) (k : CanonicalKey) :
  lookup k (pass key_of l).2 =
    match occurrences key_of k l with
    | [] => None
    | kept :: later => Some (Group kept later)
    end.
Proof.
  induction l as [|b l IH] using rev_ind; [done|].
  rewrite pass_snoc, occurrences_snoc.
  destruct (pass key_of l) as [u d]; cbn [snd] in *. unfold step.
  destruct (lookup (key_of b) d) as [g|] eqn:Hb; cbn [snd].
  - rewrite lookup_append_removed.
    destruct (decide (key_of b = k)) as [<-|Hne].
    + rewrite Hb in IH |- *. cbn.
      destruct (occurrences key_of (key_of b) l) as [|x xs]; [done|].
      by inversion IH.
    + by rewrite app_nil_r.
  - rewrite lookup_snoc.
    destruct (decide (key_of b = k)) as [<-|Hne].
    + rewrite Hb in IH |- *.
      by destruct (occurrences key_of (key_of b) l).
    + rewrite app_nil_r, IH.
      by destruct (occurrences key_of k l).
Qed.

(** [unique_bookmarks] holds the first occurrence of each key and
    nothing else. *)
Lemma pass_unique (l : list bookmark) (k : CanonicalKey) :
  occurrences key_of k (pass key_of l).1 =
    match occurrences key_of k l with
    | [] => []
    | kept :: _ => [kept]
    end.
Proof.
  induction l as [|b l IH] using rev_ind; [done|].
  pose proof (pass_lookup l (key_of b)) as Hl.
  rewrite pass_snoc, occurrences_snoc.
  destruct (pass key_of l) as [u d]; cbn [fst snd] in *. unfold step.
  destruct (lookup (key_of b) d) as [g|] eqn:Hb; cbn [fst].
  - rewrite IH.
    destruct (decide (key_of b = k)) as [<-|Hne].
    + by destruct (occurrences key_of (key_of b) l).
    + by rewrite app_nil_r.
  - rewrite occurrences_snoc, IH.
    destruct (decide (key_of b = k)) as [<-|Hne].
    + by destruct (occurrences key_of (key_of b) l).
    + by rewrite !app_nil_r.
Qed.

Lemma first_seen_snoc (l : list CanonicalKey) (k : CanonicalKey) :
  first_seen (l ++ [k]) =
    if decide (k ∈ l) then first_seen l else first_seen l ++ [k].
Proof.
  induction l as [|x l IH]; cbn [first_seen app].
  - rewrite filter_nil. destruct (decide (k ∈ [])) as [H|]; [|done].
    by apply not_elem_of_nil in H.
  - rewrite IH. destruct (decide (k ∈ l)) as [Hin|Hnin].
    + rewrite decide_True by (by right). done.
    + rewrite filter_app, filter_cons, filter_nil.
      destruct (decide (k = x)) as [->|Hne].
      * rewrite (decide_True (P := x ∈ x :: l)) by apply list_elem_of_here.
        rewrite (decide_False (P := x <> x)) by naive_solver.
        by rewrite app_nil_r.
      * rewrite (decide_False (P := k ∈ x :: l))
          by (apply not_elem_of_cons; done).
        by rewrite (decide_True (P := k <> x)) by done.
Qed.

(** The keys of the dictionary are in the order in which the pass first
    saw them. *)
Lemma pass_keys (l : list bookmark) :
  (pass key_of l).2.*1 = first_seen (key_of <$> l).
Proof.
  induction l as [|b l IH] using rev_ind; [done|].
  pose proof (pass_lookup l (key_of b)) as Hl.
  rewrite pass_snoc, fmap_app. cbn [fmap list_fmap]. rewrite first_seen_snoc.
  destruct (pass key_of l) as [u d]; cbn [snd] in *. unfold step.
  destruct (lookup (key_of b) d) as [g|] eqn:Hb; cbn [snd].
  - rewrite keys_append_removed, IH.
    rewrite decide_True; [done|].
    destruct (occurrences key_of (key_of b) l) as [|x xs] eqn:E; [done|].
    assert (x ∈ occurrences key_of (key_of b) l) as Hx by (rewrite E; left).
    apply list_elem_of_filter in Hx as [Hk Hx].
    apply list_elem_of_fmap. eauto.
  - rewrite fmap_app, IH. cbn.
    rewrite decide_False; [done|].
    intros (x & Hk & Hx)%list_elem_of_fmap.
    assert (x ∈ occurrences key_of (key_of b) l) as Hx'.
    { apply list_elem_of_filter. eauto. }
    destruct (occurrences key_of (key_of b) l); [|done].
    by apply not_elem_of_nil in Hx'.
Qed.

Lemma first_seen_NoDup (l : list CanonicalKey) : NoDup (first_seen l).
Proof.
  induction l as [|x l IH]; cbn; constructor.
  - rewrite list_elem_of_filter. by intros [? _].
  - by apply NoDup_filter.
Qed.

(** Conservation: every bookmark of the input is kept or removed. *)
Lemma pass_count (l : list bookmark) :
  (length (pass key_of l).1 + total_removed (pass key_of l).2)%nat = length l.
Proof.
  induction l as [|b l IH] using rev_ind; [done|].
  rewrite pass_snoc, length_app. cbn [length].
  destruct (pass key_of l) as [u d]; cbn [fst snd] in *. unfold step.
  destruct (lookup (key_of b) d) as [g|] eqn:Hb; cbn [fst snd].
  - rewrite total_removed_append by eauto. lia.
  - rewrite total_removed_snoc, length_app. cbn. lia.
Qed.

Lemma lookup_duplicate_groups (k : CanonicalKey) (d : items) :
  NoDup d.*1 ->
  lookup k (duplicate_groups d) =
    match lookup k d with
    | Some g => if decide (removed g = []) then None else Some g
    | None => None
    end.
Proof.
  unfold duplicate_groups.
  induction d as [|[k0 g0] d IH]; [done|].
  rewrite fmap_cons. intros [Hnin Hnd]%NoDup_cons. rewrite filter_cons.
  cbn [fst snd] in *.
  destruct (decide (removed g0 <> [])) as [Hr|Hr]; cbn [lookup].
  - destruct (decide (k0 = k)) as [->|Hne].
    + by rewrite decide_False.
    + by apply IH.
  - rewrite IH by done. destruct (decide (k0 = k)) as [->|Hne]; [|done].
    apply lookup_None in Hnin. rewrite Hnin.
    rewrite decide_True; [done|]. by destruct (removed g0); [|destruct Hr].
Qed.

(** The first-seen policy holds for every key of the input. *)
Lemma pass_first_seen (l : list bookmark) (k : CanonicalKey) :
  k ∈ key_of <$> l ->
  first_seen_policy key_of l k
    (pass key_of l).1 (duplicate_groups (pass key_of l).2).
Proof.
  intros (b & Hk & Hb)%list_elem_of_fmap.
  destruct (occurrences key_of k l) as [|kept later] eqn:E.
  { assert (b ∈ occurrences key_of k l) as Hin
      by (apply list_elem_of_filter; eauto).
    rewrite E in Hin. by apply not_elem_of_nil in Hin. }
  exists kept, later. split; [done|]. split.
  - by rewrite pass_unique, E.
  - rewrite lookup_duplicate_groups
      by (rewrite pass_keys; apply first_seen_NoDup).
    by rewrite pass_lookup, E.
Qed.

End DedupFacts.

(** ** The order of the report *)

Section SortFacts.

Import Dedup.

Context {A : Type} (key : A -> nat).

Lemma insert_by_perm (x : A) (l : list A) : insert_by key x l ≡ₚ x :: l.
Proof.
  induction l as [|y l IH]; cbn [insert_by]; [done|].
  destruct (key y <? key x)%nat; [|reflexivity].
  rewrite IH. apply Permutation_swap.
Qed.

Lemma sort_by_perm (l : list A) : sort_by key l ≡ₚ l.
Proof.
  induction l as [|x l IH]; cbn; [done|].
  change (insert_by key x (sort_by key l) ≡ₚ x :: l).
  by rewrite insert_by_perm, IH.
Qed.

Lemma insert_by_sorted (x : A) (l : list A) :
  StronglySorted (fun a b => key a <= key b)%nat l ->
  StronglySorted (fun a b => key a <= key b)%nat (insert_by key x l).
Proof.
  induction l as [|y l IH]; cbn [insert_by]; intros Hs.
  - by repeat constructor.
  - apply StronglySorted_cons in Hs as [Hy Hs].
    destruct (Nat.ltb_spec (key y) (key x)).
    + constructor; [by apply IH|].
      rewrite insert_by_perm. constructor; [cbn; lia|exact Hy].
    + constructor; [by constructor|].
      constructor; [done|].
      eapply Forall_impl; [exact Hy|]. cbn. intros; lia.
Qed.

Lemma sort_by_sorted (l : list A) :
  StronglySorted (fun a b => key a <= key b)%nat (sort_by key l).
Proof.
  induction l as [|x l IH]; [constructor|]. by apply insert_by_sorted.
Qed.

(** The insertion keeps the new element ahead of the elements of its
    key. *)
Lemma insert_by_filter (n : nat) (x : A) (l : list A) :
  filter (fun a => key a = n) (insert_by key x l)
  = filter (fun a => key a = n) (x :: l).
Proof.
  induction l as [|y l IH]; cbn [insert_by]; [done|].
  destruct (Nat.ltb_spec (key y) (key x)); [|done].
  rewrite (filter_cons _ y), IH, !filter_cons.
  destruct (decide (key y = n)), (decide (key x = n)); try done. lia.
Qed.

Lemma sort_by_stable (n : nat) (l : list A) :
  filter (fun a => key a = n) (sort_by key l) = filter (fun a => key a = n) l.
Proof.
  induction l as [|x l IH]; [done|].
  change (sort_by key (x :: l)) with (insert_by key x (sort_by key l)).
  by rewrite insert_by_filter, !filter_cons, IH.
Qed.

Lemma StronglySorted_reverse (R : A -> A -> Prop) (l : list A) :
  StronglySorted R l -> StronglySorted (flip R) (reverse l).
Proof.
  induction 1 as [|x l Hs IH Hx]; [rewrite reverse_nil; constructor|].
  rewrite reverse_cons. apply StronglySorted_app. split; [|split]; [|done|].
  - intros a b Ha ->%list_elem_of_singleton.
    rewrite elem_of_reverse in Ha.
    rewrite Forall_forall in Hx. unfold flip. by apply Hx.
  - by repeat constructor.
Qed.

Lemma sorted_descending_perm (l : list A) : sorted key true l ≡ₚ l.
Proof.
  cbn. by rewrite reverse_Permutation, sort_by_perm, reverse_Permutation.
Qed.

Lemma sorted_descending_sorted (l : list A) :
  StronglySorted (fun a b => key b <= key a)%nat (sorted key true l).
Proof. cbn. apply (StronglySorted_reverse _ _ (sort_by_sorted _)). Qed.

Lemma sorted_descending_stable (n : nat) (l : list A) :
  filter (fun a => key a = n) (sorted key true l)
  = filter (fun a => key a = n) l.
Proof.
  cbn. by rewrite filter_reverse, sort_by_stable, filter_reverse,
    reverse_involutive.
Qed.

End SortFacts.

Section Report.

Import Dedup.

Variable key_of : bookmark -> CanonicalKey.

Lemma sorted_groups_order (l : list bookmark) :
  report_order key_of l
    (duplicate_groups (pass key_of l).2)
    (sorted_groups (duplicate_groups (pass key_of l).2)).
Proof.
  unfold report_order.
  change (sorted_groups ?d) with (sorted removed_count true d).
  split; [apply sorted_descending_perm|].
  split; [apply (sorted_descending_sorted removed_count)|].
  split.
  - intros n. apply (sorted_descending_stable removed_count).
  - intros n. rewrite (sorted_descending_stable removed_count).
    rewrite <- pass_keys. apply fmap_sublist.
    etrans; [apply sublist_filter|]. apply sublist_filter.
Qed.

End Report.

(** C1: in both scripts, for every key of the input, the pass keeps the
    first occurrence of the key and no other bookmark of that key, and
    the later occurrences of the key, in the order of the input, are the
    [removed] list of the group of that key. *)
Theorem first_seen_deduplication (mode : string)
    (strict_protocol ignore_slash : bool) (all_bookmarks : list bookmark)
    (k : CanonicalKey) :
  let plain := Dedup.deduplicate_and_generate_report mode all_bookmarks in
  let robust :=
    Dedup.deduplicate_and_generate_report_robust mode strict_protocol
      ignore_slash all_bookmarks in
  let key_robust := Dedup.key_normalized mode strict_protocol ignore_slash in
  (k ∈ Dedup.key_plain mode <$> all_bookmarks ->
   first_seen_policy (Dedup.key_plain mode) all_bookmarks k
     (Dedup.kept plain) (Dedup.groups plain)) /\
  (k ∈ key_robust <$> all_bookmarks ->
   first_seen_policy key_robust all_bookmarks k
     (Dedup.kept robust) (Dedup.groups robust)).
Proof.
  intros plain robust key_robust. subst plain robust key_robust.
  split; intros Hk.
  - pose proof (pass_first_seen _ _ _ Hk) as H.
    unfold Dedup.deduplicate_and_generate_report.
    by destruct (Dedup.pass (Dedup.key_plain mode) all_bookmarks).
  - pose proof (pass_first_seen _ _ _ Hk) as H.
    unfold Dedup.deduplicate_and_generate_report_robust.
    by destruct (Dedup.pass _ all_bookmarks).
Qed.

Lemma first_seen_deduplication_witness :
  first_seen_policy (Dedup.key_normalized "url" false true)
    [("http://x.com/", "A"); ("https://x.com", "B"); ("http://y.com", "C")]
    (KUrl "x.com")
    (Dedup.kept
       (Dedup.deduplicate_and_generate_report_robust "url" false true
          [("http://x.com/", "A"); ("https://x.com", "B");
           ("http://y.com", "C")]))
    (Dedup.groups
       (Dedup.deduplicate_and_generate_report_robust "url" false true
          [("http://x.com/", "A"); ("https://x.com", "B");
           ("http://y.com", "C")])).
Proof.
  apply (first_seen_deduplication "url" false true
           [("http://x.com/", "A"); ("https://x.com", "B");
            ("http://y.com", "C")]
           (KUrl "x.com")).
  vm_compute. apply list_elem_of_here.
Defined.

(** C5: in both scripts, the kept bookmarks and the removed occurrences of
    the duplicate groups add up to the bookmarks that entered the pass;
    [total_removed_items], which the second script computes as a
    difference, is that sum. *)
Theorem dedup_conservation (mode : string)
    (strict_protocol ignore_slash : bool) (all_bookmarks : list bookmark) :
  let plain := Dedup.deduplicate_and_generate_report mode all_bookmarks in
  let robust :=
    Dedup.deduplicate_and_generate_report_robust mode strict_protocol
      ignore_slash all_bookmarks in
  let total_bookmarks_count := length all_bookmarks in
  let remaining_bookmarks_count := length (Dedup.kept robust) in
  (length (Dedup.kept plain) + Dedup.total_removed (Dedup.groups plain)
   = length all_bookmarks)%nat /\
  (remaining_bookmarks_count + Dedup.total_removed (Dedup.groups robust)
   = total_bookmarks_count)%nat /\
  (total_bookmarks_count - remaining_bookmarks_count)%nat
  = Dedup.total_removed (Dedup.groups robust).
Proof.
  intros plain robust total remaining. subst plain robust total remaining.
  split.
  - pose proof (pass_count (Dedup.key_plain mode) all_bookmarks) as H.
    unfold Dedup.deduplicate_and_generate_report.
    destruct (Dedup.pass _ all_bookmarks) as [u d].
    cbn [fst snd Dedup.kept Dedup.groups] in *.
    by rewrite total_removed_duplicate_groups.
  - pose proof (pass_count
        (Dedup.key_normalized mode strict_protocol ignore_slash)
        all_bookmarks) as H.
    unfold Dedup.deduplicate_and_generate_report_robust.
    destruct (Dedup.pass _ all_bookmarks) as [u d].
    cbn [fst snd Dedup.kept Dedup.groups] in *.
    rewrite total_removed_duplicate_groups. lia.
Qed.

(** C4, as the specification states it, fails: two groups with one removed
    occurrence each are reported in the order of their first occurrence,
    the key [b] before the smaller key [a]. *)
Lemma report_ties_by_key_counterexample :
  ~ ties_by_key
      (Dedup.report
         (Dedup.deduplicate_and_generate_report "url"
            [("b", ""); ("b", ""); ("a", ""); ("a", "")])).
Proof.
  intros H.
  specialize (H 1%nat 0%nat
    (KUrl "a", Dedup.Group ("a", "") [("a", "")])
    (KUrl "b", Dedup.Group ("b", "") [("b", "")])
    eq_refl eq_refl eq_refl eq_refl).
  lia.
Qed.

(** C4, amended: in both scripts the report lists the duplicate groups by
    decreasing number of removed occurrences, and groups with the same
    number in the order in which the pass first saw their keys. *)
Theorem report_groups_order (mode : string)
    (strict_protocol ignore_slash : bool) (all_bookmarks : list bookmark) :
  let plain := Dedup.deduplicate_and_generate_report mode all_bookmarks in
  let robust :=
    Dedup.deduplicate_and_generate_report_robust mode strict_protocol
      ignore_slash all_bookmarks in
  report_order (Dedup.key_plain mode) all_bookmarks
    (Dedup.groups plain) (Dedup.report plain) /\
  report_order (Dedup.key_normalized mode strict_protocol ignore_slash)
    all_bookmarks (Dedup.groups robust) (Dedup.report robust).
Proof.
  intros plain robust. subst plain robust. split.
  - pose proof (sorted_groups_order (Dedup.key_plain mode) all_bookmarks) as H.
    unfold Dedup.deduplicate_and_generate_report.
    by destruct (Dedup.pass _ all_bookmarks).
  - pose proof (sorted_groups_order
        (Dedup.key_normalized mode strict_protocol ignore_slash)
        all_bookmarks) as H.
    unfold Dedup.deduplicate_and_generate_report_robust.
    by destruct (Dedup.pass _ all_bookmarks).
Qed.

(** ** The event-driven parsers *)

Section StreamFacts.

Import Stream.

Variable unquote : string -> string.

Lemma handle_config (sc : script) (p : BookmarkParser) (e : event) :
  config (handle unquote sc p e) = config p.
Proof.
  destruct e as [tag attrs|data|tag]; cbn.
  - unfold handle_starttag. by repeat case_decide.
  - unfold handle_data. by destruct (is_in_a_tag p), (is_in_h3_tag p).
  - unfold handle_endtag. by repeat case_decide.
Qed.

Lemma feed_config (sc : script) (evs : list event) (p : BookmarkParser) :
  config (feed unquote sc p evs) = config p.
Proof.
  revert p. induction evs as [|e evs IH]; intros p; [done|].
  cbn. unfold feed in IH. by rewrite IH, handle_config.
Qed.

Lemma feed_filter_enabled (sc : script) (evs : list event)
    (p : BookmarkParser) :
  filter_enabled (feed unquote sc p evs) = filter_enabled p.
Proof.
  pose proof (feed_config sc evs p) as H. unfold config in H. congruence.
Qed.

Lemma feed_decode_enabled (sc : script) (evs : list event)
    (p : BookmarkParser) :
  decode_enabled (feed unquote sc p evs) = decode_enabled p.
Proof.
  pose proof (feed_config sc evs p) as H. unfold config in H. congruence.
Qed.

Lemma feed_app (sc : script) (p : BookmarkParser) (evs1 evs2 : list event) :
  feed unquote sc p (evs1 ++ evs2)
  = feed unquote sc (feed unquote sc p evs1) evs2.
Proof. apply fold_left_app. Qed.

(** Only the end of an anchor touches the list of bookmarks. *)
Lemma handle_bookmarks (sc : script) (p : BookmarkParser) (e : event) :
  e <> EndTag "a" -> bookmarks (handle unquote sc p e) = bookmarks p.
Proof.
  intros He. destruct e as [tag attrs|data|tag]; cbn.
  - unfold handle_starttag. by repeat case_decide.
  - unfold handle_data. by destruct (is_in_a_tag p), (is_in_h3_tag p).
  - unfold handle_endtag. repeat case_decide; try done. by subst.
Qed.

Lemma feed_bookmarks (sc : script) (evs : list event) (p : BookmarkParser) :
  Forall (fun e => e <> EndTag "a") evs ->
  bookmarks (feed unquote sc p evs) = bookmarks p.
Proof.
  revert p. induction evs as [|e evs IH]; intros p Hall; [done|].
  apply Forall_cons in Hall as [He Hall]. cbn. unfold feed in IH.
  by rewrite IH, handle_bookmarks.
Qed.

(** Text inside an anchor leaves [current_url] alone. *)
Lemma feed_data_url (sc : script) (ds : list string) (p : BookmarkParser) :
  current_url (feed unquote sc p (Data <$> ds)) = current_url p.
Proof.
  revert p. induction ds as [|d ds IH]; intros p; [done|].
  cbn. unfold feed in IH. rewrite IH. unfold handle_data.
  by destruct (is_in_a_tag p), (is_in_h3_tag p).
Qed.

Lemma data_not_close (ds : list string) :
  Forall (fun e => e <> EndTag "a") (Data <$> ds).
Proof. induction ds; by constructor. Qed.

(** With the filter on, the end of an anchor adds an allowed key or
    nothing. *)
Lemma handle_filtered (sc : script) (p : BookmarkParser) (e : event) :
  filter_enabled p = true ->
  Forall (fun k => passes_filter k = true) (bookmarks p) ->
  Forall (fun k => passes_filter k = true) (bookmarks (handle unquote sc p e)).
Proof.
  intros Hf Hall. destruct (decide (e = EndTag "a")) as [->|He].
  2: by rewrite handle_bookmarks.
  cbn. unfold handle_endtag. rewrite decide_True by done. cbn.
  destruct (current_url p) as [[|c u]|]; try done.
  unfold add_bookmark. rewrite Hf.
  destruct (PyStr.startswith_any allowed_prefixes _) eqn:E; cbn; [|done].
  repeat case_decide; try done.
  all: apply Forall_app; split; [done|]; by repeat constructor.
Qed.

Lemma feed_filtered (sc : script) (evs : list event) (p : BookmarkParser) :
  filter_enabled p = true ->
  Forall (fun k => passes_filter k = true) (bookmarks p) ->
  Forall (fun k => passes_filter k = true) (bookmarks (feed unquote sc p evs)).
Proof.
  revert p. induction evs as [|e evs IH]; intros p Hf Hall; [done|].
  cbn. apply IH.
  - pose proof (handle_config sc p e) as Hc. unfold config in Hc.
    congruence.
  - by apply handle_filtered.
Qed.

(** A rejected anchor leaves the list of bookmarks as it was. *)
Lemma rejected_anchor (sc : script) (p : BookmarkParser)
    (attrs : list (string * option string)) (ds : list string) (u : string) :
  filter_enabled p = true ->
  get_href attrs = Some u ->
  PyStr.startswith_any allowed_prefixes
    (PyStr.lower (if decode_enabled p then unquote u else u)) = false ->
  bookmarks
    (feed unquote sc p (StartTag "a" attrs :: (Data <$> ds) ++ [EndTag "a"]))
  = bookmarks p.
Proof.
  intros Hf Hu Hrej.
  change (StartTag "a" attrs :: (Data <$> ds) ++ [EndTag "a"])
    with ([StartTag "a" attrs] ++ (Data <$> ds) ++ [EndTag "a"]).
  rewrite !feed_app.
  set (p1 := feed unquote sc p [StartTag "a" attrs]).
  set (p2 := feed unquote sc p1 (Data <$> ds)).
  assert (filter_enabled p2 = true) as Hfe.
  { unfold p2, p1. by rewrite !feed_filter_enabled. }
  assert (decode_enabled p2 = decode_enabled p) as Hde.
  { unfold p2, p1. by rewrite !feed_decode_enabled. }
  assert (bookmarks p2 = bookmarks p) as Hb.
  { unfold p2, p1.
    rewrite feed_bookmarks by apply data_not_close.
    apply feed_bookmarks. by repeat constructor. }
  assert (current_url p2 = Some u) as Hcur.
  { unfold p2. rewrite feed_data_url. done. }
  cbn. unfold handle_endtag. rewrite decide_True by done. cbn.
  rewrite Hcur. destruct u as [|c u]; [done|].
  unfold add_bookmark. by rewrite Hfe, Hde, Hrej.
Qed.

End StreamFacts.

(** ** The matcher *)

Section MatcherFacts.

Lemma suffix_of_refl (s : string) : suffix_of s s.
Proof. by exists "". Qed.

Lemma suffix_of_trans (a b c : string) :
  suffix_of a b -> suffix_of b c -> suffix_of a c.
Proof.
  intros [p1 ->] [p2 ->]. exists (p2 +:+ p1). by rewrite append_assoc.
Qed.

Lemma suffix_of_tail (c : ascii) (s : string) : suffix_of s (String c s).
Proof. by exists (String c ""). Qed.

Lemma suffix_of_cons (c : ascii) (t s : string) :
  suffix_of t s -> suffix_of t (String c s).
Proof. intros H. eapply suffix_of_trans; [exact H|apply suffix_of_tail]. Qed.

(** A match hands its continuation a suffix of the text, and the result
    of the match is the result of the continuation. *)
Lemma rmatch_sound (ic : bool) (r : Re.regex) :
  forall (s : string) (caps : list string)
         (k : string -> list string -> option Re.outcome) (o : Re.outcome),
    Re.rmatch ic r s caps k = Some o ->
    exists s' caps', suffix_of s' s /\ k s' caps' = Some o.
Proof.
  induction r as [|c|p|r1 IH1 r2 IH2|r1 IH1|p|p|r1 IH1];
    intros s caps k o H; cbn [Re.rmatch] in H.
  - exists s, caps. split; [apply suffix_of_refl|done].
  - destruct s as [|x s]; [done|]. destruct (Re.lit_eqb ic c x); [|done].
    exists s, caps. split; [apply suffix_of_tail|done].
  - destruct s as [|x s]; [done|]. destruct (p x); [|done].
    exists s, caps. split; [apply suffix_of_tail|done].
  - apply IH1 in H as (s1 & c1 & Hs1 & H).
    apply IH2 in H as (s2 & c2 & Hs2 & H).
    exists s2, c2. split; [by eapply suffix_of_trans|done].
  - destruct (Re.rmatch ic r1 s caps k) as [o'|] eqn:E.
    + inversion H; subst o'. by apply IH1 in E.
    + exists s, caps. split; [apply suffix_of_refl|done].
  - revert H. induction s as [|x s IHs]; intros H; cbn in H.
    + exists "", caps. split; [apply suffix_of_refl|done].
    + destruct (p x).
      * match type of H with
        | match ?loop with _ => _ end = _ => destruct loop as [o'|] eqn:E
        end.
        -- inversion H; subst o'.
           destruct (IHs eq_refl) as (s' & c' & Hs' & Hk).
           exists s', c'. split; [by apply suffix_of_cons|done].
        -- exists (String x s), caps. split; [apply suffix_of_refl|done].
      * exists (String x s), caps. split; [apply suffix_of_refl|done].
  - revert H. induction s as [|x s IHs]; intros H; cbn in H.
    + destruct (k "" caps) as [o'|] eqn:E; [|done].
      exists "", caps. split; [apply suffix_of_refl|congruence].
    + destruct (k (String x s) caps) as [o'|] eqn:E.
      * exists (String x s), caps. split; [apply suffix_of_refl|congruence].
      * destruct (p x); [|done].
        destruct (IHs H) as (s' & c' & Hs' & Hk).
        exists s', c'. split; [by apply suffix_of_cons|done].
  - apply IH1 in H as (s1 & c1 & Hs1 & H). eauto.
Qed.

(** The first piece of a sequence leaves a suffix to the rest. *)
Lemma rmatch_seq (ic : bool) (r1 r2 : Re.regex) (s : string)
    (caps : list string) (k : string -> list string -> option Re.outcome)
    (o : Re.outcome) :
  Re.rmatch ic (Re.Seq r1 r2) s caps k = Some o ->
  exists s' caps', suffix_of s' s /\ Re.rmatch ic r2 s' caps' k = Some o.
Proof. cbn [Re.rmatch]. apply rmatch_sound. Qed.

(** Under [re.IGNORECASE], literals in lower case match the head of the
    text in lower case. *)
Lemma rmatch_lits_lower (lit : string) :
  PyStr.lower lit = lit ->
  forall (s : string) (caps : list string)
         (k : string -> list string -> option Re.outcome) (o : Re.outcome),
    Re.rmatch true (Re.lits lit) s caps k = Some o ->
    PyStr.startswith lit (PyStr.lower s) = true.
Proof.
  induction lit as [|c lit IH]; intros Hl s caps k o H; [done|].
  cbn [PyStr.lower] in Hl. injection Hl as Hc Hl.
  cbn [Re.lits Re.rmatch] in H.
  destruct s as [|x s]; [done|].
  destruct (Re.lit_eqb true c x) eqn:E; [|done].
  cbn [PyStr.lower PyStr.startswith].
  unfold Re.lit_eqb in E. rewrite Hc in E. rewrite E. cbn.
  by eapply IH.
Qed.

Lemma lower_app (a b : string) :
  PyStr.lower (a +:+ b) = PyStr.lower a +:+ PyStr.lower b.
Proof.
  induction a as [|c a IH]; [done|].
  rewrite append_cons. cbn [PyStr.lower]. by rewrite IH, append_cons.
Qed.

Lemma contains_startswith (sub s : string) :
  PyStr.startswith sub s = true -> PyStr.contains sub s = true.
Proof. intros H. destruct s; cbn [PyStr.contains]; by rewrite H. Qed.

Lemma contains_app_r (sub pre s : string) :
  PyStr.contains sub s = true -> PyStr.contains sub (pre +:+ s) = true.
Proof.
  intros H. induction pre as [|c pre IH]; [done|].
  rewrite append_cons. cbn [PyStr.contains]. rewrite IH. apply orb_true_r.
Qed.

Lemma contains_suffix (sub t s : string) :
  suffix_of t s ->
  PyStr.startswith sub (PyStr.lower t) = true ->
  PyStr.contains sub (PyStr.lower s) = true.
Proof.
  intros [pre ->] H. rewrite lower_app.
  by apply contains_app_r, contains_startswith.
Qed.

(** Without a match at any suffix, [findall] finds nothing. *)
Lemma findall_from_none (ic : bool) (r : Re.regex) (s : string) (skip : nat) :
  (forall t, suffix_of t s -> Re.re_match ic r t = None) ->
  Re.findall_from ic r s skip = [].
Proof.
  revert skip. induction s as [|c s IH]; intros skip Hno; [done|].
  cbn [Re.findall_from]. destruct skip as [|n].
  - rewrite (Hno _ (suffix_of_refl _)). apply IH.
    intros t Ht. by apply Hno, suffix_of_cons.
  - apply IH. intros t Ht. by apply Hno, suffix_of_cons.
Qed.

(** A match of [bookmark_pattern] ends with [</a>], in either case. *)
Lemma bookmark_pattern_needs_close (t : string) (o : Re.outcome) :
  Re.re_match true Regex.bookmark_pattern t = Some o ->
  PyStr.contains "</a>" (PyStr.lower t) = true.
Proof.
  unfold Re.re_match, Regex.bookmark_pattern, Re.cat. cbn [foldr].
  intros H. pose proof (suffix_of_refl t) as Hsuf.
  do 11 (let s' := fresh "s" in
         let c' := fresh "caps" in
         let Hs' := fresh "Hs" in
         apply rmatch_seq in H as (s' & c' & Hs' & H);
         apply (fun X => suffix_of_trans _ _ _ X Hsuf) in Hs';
         clear Hsuf; rename Hs' into Hsuf).
  cbn [Re.rmatch] in H. apply rmatch_lits_lower in H; [|done].
  by eapply contains_suffix.
Qed.

Lemma contains_suffix_false (sub t s : string) :
  suffix_of t s ->
  PyStr.contains sub s = false -> PyStr.contains sub t = false.
Proof.
  intros [pre ->] H. destruct (PyStr.contains sub t) eqn:E; [|done].
  by rewrite contains_app_r in H.
Qed.

Lemma lower_suffix (t s : string) :
  suffix_of t s -> suffix_of (PyStr.lower t) (PyStr.lower s).
Proof. intros [pre ->]. exists (PyStr.lower pre). apply lower_app. Qed.

(** Text without [</a>] holds no match of [bookmark_pattern]. *)
Lemma bookmark_pattern_findall (text : string) :
  PyStr.contains "</a>" (PyStr.lower text) = false ->
  Re.findall true Regex.bookmark_pattern text = [].
Proof.
  intros Hno. apply findall_from_none. intros t Ht.
  destruct (Re.re_match true Regex.bookmark_pattern t) as [o|] eqn:E; [|done].
  apply bookmark_pattern_needs_close in E.
  apply lower_suffix in Ht.
  by rewrite (contains_suffix_false _ _ _ Ht Hno) in E.
Qed.

End MatcherFacts.

(** ** N-way intersection *)

Section IntersectionFacts.

Lemma stream_fold_spec (others : list Stream.file_data)
    (acc : gset CanonicalKey * gset string) :
  let r := fold_left
             (fun common d =>
                (common.1 ∩ Stream.b_set d, common.2 ∩ Stream.f_set d))
             others acc in
  (forall k, k ∈ r.1 <->
             k ∈ acc.1 /\ forall d, d ∈ others -> k ∈ Stream.b_set d) /\
  (forall x, x ∈ r.2 <->
             x ∈ acc.2 /\ forall d, d ∈ others -> x ∈ Stream.f_set d).
Proof.
  revert acc. induction others as [|d others IH]; intros acc; cbn.
  - split; intros y; (split; [intros H; split; [done|]|by intros [H _]]);
      intros d Hd; by apply not_elem_of_nil in Hd.
  - destruct (IH (acc.1 ∩ Stream.b_set d, acc.2 ∩ Stream.f_set d))
      as [Hb Hf].
    cbn in Hb, Hf. split; intros y.
    + rewrite Hb, elem_of_intersection. split.
      * intros [[Ha Hd] Ho]. split; [done|].
        intros d' [->|Hd']%elem_of_cons; auto.
      * intros [Ha Ho]. split; [split; [done|]|].
        -- apply Ho. by left.
        -- intros d' Hd'. apply Ho. by right.
    + rewrite Hf, elem_of_intersection. split.
      * intros [[Ha Hd] Ho]. split; [done|].
        intros d' [->|Hd']%elem_of_cons; auto.
      * intros [Ha Ho]. split; [split; [done|]|].
        -- apply Ho. by left.
        -- intros d' Hd'. apply Ho. by right.
Qed.

(** The result of the intersection holds what every file holds. *)
Lemma stream_intersection_spec (all_data : list Stream.file_data)
    (r : gset CanonicalKey * gset string) :
  Stream.analyze_multiple_files all_data = Some r ->
  (forall k, k ∈ r.1 <-> forall d, d ∈ all_data -> k ∈ Stream.b_set d) /\
  (forall x, x ∈ r.2 <-> forall d, d ∈ all_data -> x ∈ Stream.f_set d).
Proof.
  unfold Stream.analyze_multiple_files.
  destruct (length all_data <? 2)%nat; [done|].
  destruct all_data as [|first others]; [done|].
  intros [= <-].
  destruct (stream_fold_spec others (Stream.b_set first, Stream.f_set first))
    as [Hb Hf].
  cbn in Hb, Hf. split; intros y.
  - rewrite Hb. split.
    + intros [H0 Ho] d [->|Hd]%elem_of_cons; auto.
    + intros H. split; [apply H; by left|]. intros d Hd. apply H. by right.
  - rewrite Hf. split.
    + intros [H0 Ho] d [->|Hd]%elem_of_cons; auto.
    + intros H. split; [apply H; by left|]. intros d Hd. apply H. by right.
Qed.

Lemma stream_intersection_some (all_data : list Stream.file_data) :
  (2 <= length all_data)%nat ->
  is_Some (Stream.analyze_multiple_files all_data).
Proof.
  intros H. unfold Stream.analyze_multiple_files.
  destruct (Nat.ltb_spec (length all_data) 2); [lia|].
  destruct all_data; [cbn in H; lia|]. eauto.
Qed.

Lemma set_fold_spec `{Countable K} (others : list (gset K)) (acc : gset K) :
  forall k, k ∈ fold_left (fun a t => a ∩ t) others acc
            <-> k ∈ acc /\ forall t, t ∈ others -> k ∈ t.
Proof.
  revert acc. induction others as [|t others IH]; intros acc k; cbn.
  - split; [intros Hk; split; [done|]|by intros [Hk _]].
    intros t Ht. by apply not_elem_of_nil in Ht.
  - rewrite IH, elem_of_intersection. split.
    + intros [[Ha Ht] Ho]. split; [done|].
      intros t' [->|Ht']%elem_of_cons; auto.
    + intros [Ha Ho]. split; [split; [done|]|].
      * apply Ho. by left.
      * intros t' Ht'. apply Ho. by right.
Qed.

(** [set.intersection] holds what every argument holds. *)
Lemma set_intersection_spec `{Countable K} (sets : list (gset K)) (r : gset K) :
  Regex.set_intersection sets = Some r ->
  forall k, k ∈ r <-> forall t, t ∈ sets -> k ∈ t.
Proof.
  destruct sets as [|s others]; [done|]. intros [= <-] k.
  rewrite set_fold_spec. split.
  - intros [H0 Ho] t [->|Ht]%elem_of_cons; auto.
  - intros Hall. split; [apply Hall; by left|].
    intros t Ht. apply Hall. by right.
Qed.

Lemma set_intersection_perm `{Countable K} (sets sets' : list (gset K)) :
  sets ≡ₚ sets' ->
  Regex.set_intersection sets = Regex.set_intersection sets'.
Proof.
  intros Hp.
  destruct (Regex.set_intersection sets) as [r|] eqn:E,
           (Regex.set_intersection sets') as [r'|] eqn:E'.
  - f_equal. apply set_eq. intros k.
    rewrite (set_intersection_spec _ _ E), (set_intersection_spec _ _ E').
    by setoid_rewrite Hp.
  - destruct sets'; [|done]. apply Permutation_nil_r in Hp. by subst.
  - destruct sets; [|done]. apply Permutation_nil_l in Hp. by subst.
  - done.
Qed.

End IntersectionFacts.

(** ** The claims on the parsers and on the intersection *)

(** C6: with the protocol filter on, an anchor whose url, decoded when
    decoding is on, starts with none of [http], [https], [ftp] in any case
    adds nothing: the set of keys and the total count of the file are what
    they were before the anchor.  Every key of a filtered file passes the
    test. *)
Theorem protocol_filter_excludes (unquote : string -> string)
    (sc : Stream.script) (mode : string) (decode_enabled : bool)
    (content : list Stream.event)
    (attrs : list (string * option string)) (title : list string)
    (url : string) :
  Stream.get_href attrs = Some url ->
  PyStr.startswith_any Stream.allowed_prefixes
    (PyStr.lower (if decode_enabled then unquote url else url)) = false ->
  let before :=
    Stream.parse_bookmarks_file_fast unquote sc mode true decode_enabled
      content in
  let after :=
    Stream.parse_bookmarks_file_fast unquote sc mode true decode_enabled
      (content ++ Stream.StartTag "a" attrs :: (Stream.Data <$> title)
                  ++ [Stream.EndTag "a"]) in
  Stream.b_set after = Stream.b_set before /\
  Stream.b_total after = Stream.b_total before /\
  (forall k, k ∈ Stream.b_set after -> passes_filter k = true).
Proof.
  intros Hu Hrej before after. subst before after.
  unfold Stream.parse_bookmarks_file_fast. cbn [Stream.b_set Stream.b_total].
  rewrite feed_app.
  set (p := Stream.feed unquote sc
              (Stream.init mode true decode_enabled) content).
  assert (Stream.filter_enabled p = true) as Hf
    by (unfold p; by rewrite feed_filter_enabled).
  assert (Stream.decode_enabled p = decode_enabled) as Hd
    by (unfold p; by rewrite feed_decode_enabled).
  assert (Stream.bookmarks
            (Stream.feed unquote sc p
               (Stream.StartTag "a" attrs :: (Stream.Data <$> title)
                ++ [Stream.EndTag "a"]))
          = Stream.bookmarks p) as ->.
  { apply (rejected_anchor unquote sc p attrs title url); [done|done|].
    by rewrite Hd. }
  split; [done|]. split; [done|].
  intros k Hk%elem_of_list_to_set.
  assert (Forall (fun k => passes_filter k = true) (Stream.bookmarks p))
    as Hall.
  { unfold p. apply feed_filtered; [done|constructor]. }
  rewrite Forall_forall in Hall. by apply Hall.
Qed.

Lemma protocol_filter_excludes_witness :
  Stream.b_total
    (Stream.parse_bookmarks_file_fast (fun s => s) Stream.TwoFile "url"
       true false
       ([Stream.StartTag "a" [("href", Some "http://x.com")];
         Stream.Data "X"; Stream.EndTag "a"]
        ++ Stream.StartTag "a" [("href", Some "mailto:me@x.com")]
           :: (Stream.Data <$> ["Mail"]) ++ [Stream.EndTag "a"]))
  = Stream.b_total
      (Stream.parse_bookmarks_file_fast (fun s => s) Stream.TwoFile "url"
         true false
         [Stream.StartTag "a" [("href", Some "http://x.com")];
          Stream.Data "X"; Stream.EndTag "a"]).
Proof.
  apply (protocol_filter_excludes (fun s => s) Stream.TwoFile "url" false
           [Stream.StartTag "a" [("href", Some "http://x.com")];
            Stream.Data "X"; Stream.EndTag "a"]
           [("href", Some "mailto:me@x.com")] ["Mail"] "mailto:me@x.com");
    reflexivity.
Defined.

(** C8, as the specification states it, fails for the regular-expression
    parser in mode [url]: its pattern stops at the closing quote of the
    [href], so the unclosed anchor of Scenario 5 yields an entry. *)
Lemma unclosed_anchor_counterexample :
  KUrl "http://x.com" ∈ (Regex.parse_bookmarks_file scenario5 "url").1.
Proof.
  unfold Regex.parse_bookmarks_file. cbn [fst].
  rewrite decide_True by done.
  replace (Re.findall true Regex.url_pattern scenario5)
    with [["http://x.com"]] by (vm_compute; reflexivity).
  cbn. apply elem_of_union_l, elem_of_singleton. done.
Qed.

(** C8, amended: in the event-driven parsers, in every mode, an anchor
    that is opened and not closed before the end of the input adds no
    entry; in the regular-expression parser this holds in mode
    [url-title], where no match starts in a text without [</a>]. *)
Theorem unclosed_anchor_yields_nothing (unquote : string -> string)
    (sc : Stream.script) (mode : string) (filter_enabled decode_enabled : bool)
    (content rest : list Stream.event)
    (attrs : list (string * option string)) (text : string) :
  (Forall (fun e => e <> Stream.EndTag "a") rest ->
   let before :=
     Stream.parse_bookmarks_file_fast unquote sc mode filter_enabled
       decode_enabled content in
   let after :=
     Stream.parse_bookmarks_file_fast unquote sc mode filter_enabled
       decode_enabled (content ++ Stream.StartTag "a" attrs :: rest) in
   Stream.b_set after = Stream.b_set before /\
   Stream.b_total after = Stream.b_total before) /\
  (PyStr.contains "</a>" (PyStr.lower text) = false ->
   Re.re_match true Regex.bookmark_pattern text = None /\
   (Regex.parse_bookmarks_file text "url-title").1 = ∅).
Proof.
  split.
  - intros Hrest before after. subst before after.
    unfold Stream.parse_bookmarks_file_fast. cbn [Stream.b_set Stream.b_total].
    rewrite feed_app, feed_bookmarks; [done|].
    constructor; [done|exact Hrest].
  - intros Hno. split.
    + destruct (Re.re_match true Regex.bookmark_pattern text) as [o|] eqn:E;
        [|done].
      apply bookmark_pattern_needs_close in E. congruence.
    + unfold Regex.parse_bookmarks_file. cbn [fst].
      rewrite decide_False by done. rewrite decide_True by done.
      by rewrite bookmark_pattern_findall.
Qed.

Lemma unclosed_anchor_yields_nothing_witness :
  Stream.b_total
    (Stream.parse_bookmarks_file_fast (fun s => s) Stream.TwoFile "url-title"
       false false
       ([] ++ Stream.StartTag "a" [("href", Some "http://x.com")]
              :: [Stream.Data "Title"]))
  = 0%nat /\
  (Regex.parse_bookmarks_file scenario5 "url-title").1 = ∅.
Proof.
  split.
  - apply (unclosed_anchor_yields_nothing (fun s => s) Stream.TwoFile
             "url-title" false false [] [Stream.Data "Title"]
             [("href", Some "http://x.com")] scenario5).
    repeat constructor; discriminate.
  - apply (unclosed_anchor_yields_nothing (fun s => s) Stream.TwoFile
             "url-title" false false [] [Stream.Data "Title"]
             [("href", Some "http://x.com")] scenario5).
    reflexivity.
Defined.

Section FolderFacts.

Import Stream.

Variable unquote : string -> string.

Lemma truthy_nonempty (s : string) : PyStr.truthy s = true -> s <> "".
Proof. by destruct s. Qed.

Lemma handle_folders_nonempty (p : BookmarkParser) (e : event) :
  "" ∉ folders p -> "" ∉ folders (handle unquote MultiFile p e).
Proof.
  intros Hp. destruct e as [tag attrs|data|tag]; cbn.
  - unfold handle_starttag. by repeat case_decide.
  - unfold handle_data. by destruct (is_in_a_tag p), (is_in_h3_tag p).
  - unfold handle_endtag. repeat case_decide; try done. cbn.
    destruct (PyStr.truthy (PyStr.strip (current_folder p))) eqn:E; [|done].
    apply truthy_nonempty in E.
    rewrite not_elem_of_union, not_elem_of_singleton. by split.
Qed.

Lemma feed_folders_nonempty (evs : list event) (p : BookmarkParser) :
  "" ∉ folders p -> "" ∉ folders (feed unquote MultiFile p evs).
Proof.
  revert p. induction evs as [|e evs IH]; intros p Hp; [done|].
  cbn. apply IH. by apply handle_folders_nonempty.
Qed.

End FolderFacts.

(** C9: the folder set of the multi-file parser never holds the empty
    string: a closing [h3] whose text strips to nothing adds one to the
    folder counter and leaves the set alone, where the two-file parser
    puts the empty string into the set. *)
Theorem multi_file_folders_nonempty (unquote : string -> string)
    (mode : string) (filter_enabled decode_enabled : bool)
    (content : list Stream.event) (p : Stream.BookmarkParser) :
  ("" ∉ Stream.f_set
          (Stream.parse_bookmarks_file_fast unquote Stream.MultiFile mode
             filter_enabled decode_enabled content)) /\
  (PyStr.strip (Stream.current_folder p) = "" ->
   Stream.total_folder_counter
     (Stream.handle_endtag unquote Stream.MultiFile p "h3")
   = S (Stream.total_folder_counter p) /\
   Stream.folders (Stream.handle_endtag unquote Stream.MultiFile p "h3")
   = Stream.folders p /\
   Stream.total_folder_counter
     (Stream.handle_endtag unquote Stream.TwoFile p "h3")
   = S (Stream.total_folder_counter p) /\
   ("" ∈ Stream.folders
           (Stream.handle_endtag unquote Stream.TwoFile p "h3"))).
Proof.
  split.
  - unfold Stream.parse_bookmarks_file_fast. cbn [Stream.f_set].
    apply feed_folders_nonempty. cbn. apply not_elem_of_empty.
  - intros Hs. unfold Stream.handle_endtag.
    rewrite !(decide_False (P := "h3" = "a")) by done.
    rewrite !(decide_True (P := "h3" = "h3")) by done.
    cbn. rewrite Hs. cbn.
    repeat split; try done. apply elem_of_union_l, elem_of_singleton. done.
Qed.

Lemma multi_file_folders_nonempty_witness :
  ("" ∈ Stream.folders
          (Stream.handle_endtag (fun s => s) Stream.TwoFile
             (Stream.MkParser "url" false false [] ∅ 0 false true
                (Some "") "" "  ")
             "h3")) /\
  Stream.folders
    (Stream.handle_endtag (fun s => s) Stream.MultiFile
       (Stream.MkParser "url" false false [] ∅ 0 false true
                (Some "") "" "  ")
       "h3") = ∅.
Proof.
  split.
  - apply (multi_file_folders_nonempty (fun s => s) "url" false false []
             (Stream.MkParser "url" false false [] ∅ 0 false true
                (Some "") "" "  ")).
    reflexivity.
  - apply (multi_file_folders_nonempty (fun s => s) "url" false false []
             (Stream.MkParser "url" false false [] ∅ 0 false true
                (Some "") "" "  ")).
    reflexivity.
Defined.

(** C7: the N-way intersection of two or more files does not depend on
    their order, for the keys and for the folder names, in the
    event-driven script and in [generate_multi_report]; intersecting [A]
    with the intersection of [B] and [C] gives the intersection of the
    three. *)
Theorem intersection_order_independent
    (all_data all_data' : list Stream.file_data)
    (sets sets' : list (gset CanonicalKey * gset string))
    (A B C : Stream.file_data) (b_total f_total : nat) :
  (all_data ≡ₚ all_data' -> (2 <= length all_data)%nat ->
   is_Some (Stream.analyze_multiple_files all_data) /\
   Stream.analyze_multiple_files all_data
   = Stream.analyze_multiple_files all_data') /\
  (sets ≡ₚ sets' -> (2 <= length sets)%nat ->
   is_Some (Regex.generate_multi_report sets) /\
   Regex.generate_multi_report sets = Regex.generate_multi_report sets') /\
  (forall r, Stream.analyze_multiple_files [B; C] = Some r ->
     Stream.analyze_multiple_files [A; Stream.FileData r.1 b_total r.2 f_total]
     = Stream.analyze_multiple_files [A; B; C]) /\
  (forall r, Regex.generate_multi_report [(Stream.b_set B, Stream.f_set B);
                           (Stream.b_set C, Stream.f_set C)] = Some r ->
     Regex.generate_multi_report [(Stream.b_set A, Stream.f_set A); r]
     = Regex.generate_multi_report [(Stream.b_set A, Stream.f_set A);
                     (Stream.b_set B, Stream.f_set B);
                     (Stream.b_set C, Stream.f_set C)]).
Proof.
  split; [|split; [|split]].
  - intros Hp Hlen.
    pose proof (stream_intersection_some _ Hlen) as [r Hr].
    assert (2 <= length all_data')%nat as Hlen'
      by (by rewrite <- (Permutation_length Hp)).
    pose proof (stream_intersection_some _ Hlen') as [r' Hr'].
    split; [by eexists|]. rewrite Hr, Hr'. f_equal.
    destruct (stream_intersection_spec _ _ Hr) as [Hb Hf].
    destruct (stream_intersection_spec _ _ Hr') as [Hb' Hf'].
    destruct r as [rb rf], r' as [rb' rf']. cbn [fst snd] in *. f_equal.
    + apply set_eq. intros k. rewrite Hb, Hb'. by setoid_rewrite Hp.
    + apply set_eq. intros x. rewrite Hf, Hf'. by setoid_rewrite Hp.
  - intros Hp Hlen. unfold Regex.generate_multi_report.
    rewrite (set_intersection_perm (fst <$> sets) (fst <$> sets'))
      by (by apply fmap_Permutation).
    rewrite (set_intersection_perm (snd <$> sets) (snd <$> sets'))
      by (by apply fmap_Permutation).
    split; [|done].
    destruct sets' as [|s1 sets'].
    { apply Permutation_nil_r in Hp. subst. cbn in Hlen. lia. }
    cbn. eauto.
  - intros r [= <-]. cbn. f_equal. f_equal; apply (assoc_L (∩)).
  - intros r [= <-]. cbn. f_equal. f_equal; apply (assoc_L (∩)).
Qed.

Lemma intersection_order_independent_witness :
  Stream.analyze_multiple_files
    [Stream.FileData {[KUrl "a"; KUrl "b"]} 2 {["Work"; "Personal"]} 2;
     Stream.FileData {[KUrl "b"; KUrl "c"]} 2 {["Work"; "Travel"]} 2;
     Stream.FileData {[KUrl "b"]} 1 {["Work"]} 1]
  = Stream.analyze_multiple_files
      [Stream.FileData {[KUrl "b"; KUrl "c"]} 2 {["Work"; "Travel"]} 2;
       Stream.FileData {[KUrl "a"; KUrl "b"]} 2 {["Work"; "Personal"]} 2;
       Stream.FileData {[KUrl "b"]} 1 {["Work"]} 1].
Proof.
  apply (intersection_order_independent
           [Stream.FileData {[KUrl "a"; KUrl "b"]} 2 {["Work"; "Personal"]} 2;
            Stream.FileData {[KUrl "b"; KUrl "c"]} 2 {["Work"; "Travel"]} 2;
            Stream.FileData {[KUrl "b"]} 1 {["Work"]} 1]
           [Stream.FileData {[KUrl "b"; KUrl "c"]} 2 {["Work"; "Travel"]} 2;
            Stream.FileData {[KUrl "a"; KUrl "b"]} 2 {["Work"; "Personal"]} 2;
            Stream.FileData {[KUrl "b"]} 1 {["Work"]} 1]
           [] [] (Stream.FileData ∅ 0 ∅ 0) (Stream.FileData ∅ 0 ∅ 0)
           (Stream.FileData ∅ 0 ∅ 0) 0 0).
  - apply perm_swap.
  - cbn. lia.
Defined.

(** * Further properties of the scripts *)

(** ** The deduplication pass *)

Section DedupMore.

Import Dedup.

Variable key_of : bookmark -> CanonicalKey.

Lemma elem_of_first_seen (l : list CanonicalKey) (x : CanonicalKey) :
  x ∈ first_seen l <-> x ∈ l.
Proof.
  induction l as [|y l IH]; [done|]. cbn [first_seen].
  rewrite !elem_of_cons, list_elem_of_filter, IH.
  destruct (decide (x = y)) as [->|Hne]; [split; by left|].
  split; [intros [?|[_ ?]]; [by left|by right]|].
  intros [?|?]; [by left|by right].
Qed.

Lemma pass_lookup_None (l : list bookmark) (k : CanonicalKey) :
  lookup k (pass key_of l).2 = None <-> k ∉ key_of <$> l.
Proof.
  rewrite lookup_None, pass_keys. by rewrite elem_of_first_seen.
Qed.

(** The keys of the kept bookmarks are the keys of the input in the order
    of their first occurrence. *)
Lemma pass_kept_keys (l : list bookmark) :
  key_of <$> (pass key_of l).1 = first_seen (key_of <$> l).
Proof.
  induction l as [|b l IH] using rev_ind; [done|].
  pose proof (pass_lookup_None l (key_of b)) as Hl.
  rewrite pass_snoc, fmap_app. cbn [fmap list_fmap]. rewrite first_seen_snoc.
  destruct (pass key_of l) as [u d]; cbn [fst snd] in *. unfold step.
  destruct (lookup (key_of b) d) as [g|] eqn:Hb; cbn [fst].
  - rewrite decide_True; [done|].
    destruct (decide (key_of b ∈ key_of <$> l)) as [|Hn]; [done|].
    apply Hl in Hn. congruence.
  - rewrite fmap_app, IH. cbn. rewrite decide_False; [done|].
    by apply Hl.
Qed.

Lemma pass_kept_sublist (l : list bookmark) :
  (pass key_of l).1 `sublist_of` l.
Proof.
  induction l as [|b l IH] using rev_ind; [done|].
  rewrite pass_snoc.
  destruct (pass key_of l) as [u d]; cbn [fst snd] in *. unfold step.
  destruct (lookup (key_of b) d); cbn [fst].
  - by apply sublist_inserts_r.
  - by apply sublist_app.
Qed.

Lemma sublist_same_length {A} (l1 l2 : list A) :
  l1 `sublist_of` l2 -> length l1 = length l2 -> l1 = l2.
Proof.
  induction 1 as [|x l1 l2 Hs IH|x l1 l2 Hs IH]; cbn; intros Hlen.
  - done.
  - f_equal. apply IH. lia.
  - apply sublist_length in Hs. lia.
Qed.

(** A pass over bookmarks of distinct keys keeps them all and finds no
    later occurrence. *)
Lemma pass_distinct (l : list bookmark) :
  NoDup (key_of <$> l) ->
  pass key_of l = (l, (fun b => (key_of b, Group b [])) <$> l).
Proof.
  induction l as [|b l IH] using rev_ind; [done|].
  rewrite fmap_app. intros (Hnd & Hnin & _)%NoDup_app.
  rewrite pass_snoc, IH by done. unfold step.
  assert (lookup (key_of b) ((fun b => (key_of b, Group b [])) <$> l) = None)
    as ->.
  { apply lookup_None. rewrite <- list_fmap_compose.
    intros Hin. apply (Hnin _ Hin). cbn. apply list_elem_of_here. }
  by rewrite fmap_app.
Qed.

Lemma duplicate_groups_fresh (l : list bookmark) :
  duplicate_groups ((fun b => (key_of b, Group b [])) <$> l) = [].
Proof.
  unfold duplicate_groups. induction l as [|b l IH]; [done|].
  rewrite fmap_cons, filter_cons. by rewrite decide_False by (by intros []).
Qed.

Lemma total_removed_zero (d : items) :
  total_removed d = 0%nat <-> duplicate_groups d = [].
Proof.
  unfold duplicate_groups. induction d as [|[k g] d IH]; [done|].
  rewrite total_removed_cons, filter_cons. cbn [snd].
  destruct (removed g) as [|x xs] eqn:E.
  - rewrite decide_False by (by intros []). cbn. apply IH.
  - rewrite decide_True by done. cbn. split; [lia|done].
Qed.

Lemma lookup_elem_of (k : CanonicalKey) (g : group) (d : items) :
  NoDup d.*1 -> (k, g) ∈ d -> lookup k d = Some g.
Proof.
  induction d as [|[k0 g0] d IH]; [by intros _ ?%not_elem_of_nil|].
  rewrite fmap_cons. intros [Hnin Hnd]%NoDup_cons [Heq|Hin]%elem_of_cons.
  - injection Heq as -> ->. cbn. by rewrite decide_True.
  - cbn. destruct (decide (k0 = k)) as [->|]; [|by apply IH].
    destruct Hnin. apply list_elem_of_fmap. by exists (k, g).
Qed.

Lemma pass_keys_NoDup (l : list bookmark) : NoDup (pass key_of l).2.*1.
Proof. rewrite pass_keys. apply first_seen_NoDup. Qed.

(** What the pass guarantees of a duplicate group. *)
Lemma pass_group (l : list bookmark) (k : CanonicalKey) (g : group) :
  (k, g) ∈ duplicate_groups (pass key_of l).2 ->
  removed g <> [] /\
  occurrences key_of k l = original g :: removed g /\
  original g ∈ (pass key_of l).1.
Proof.
  unfold duplicate_groups. intros [Hr Hin]%list_elem_of_filter.
  cbn [snd] in Hr. split; [done|].
  apply lookup_elem_of in Hin; [|apply pass_keys_NoDup].
  rewrite pass_lookup in Hin.
  destruct (occurrences key_of k l) as [|kept later] eqn:E; [done|].
  injection Hin as <-. cbn [original removed]. split; [done|].
  pose proof (pass_unique key_of l k) as Hu. rewrite E in Hu.
  assert (kept ∈ occurrences key_of k (pass key_of l).1) as Hk
    by (rewrite Hu; apply list_elem_of_here).
  by apply list_elem_of_filter in Hk as [_ Hk].
Qed.

(** No duplicate group, all bookmarks kept and distinct keys are one and
    the same. *)
Lemma pass_kept_all (l : list bookmark) :
  (pass key_of l).1 = l <-> duplicate_groups (pass key_of l).2 = [].
Proof.
  rewrite <- total_removed_zero.
  pose proof (pass_count key_of l) as Hc.
  pose proof (pass_kept_sublist l) as Hs.
  split.
  - intros Heq. rewrite Heq in Hc. lia.
  - intros Hz. apply sublist_same_length; [done|lia].
Qed.

Lemma pass_kept_all_distinct (l : list bookmark) :
  (pass key_of l).1 = l <-> NoDup (key_of <$> l).
Proof.
  split.
  - intros Heq. rewrite <- Heq at 1. rewrite pass_kept_keys.
    apply first_seen_NoDup.
  - intros Hnd. by rewrite pass_distinct.
Qed.

End DedupMore.

(** A coarser key keeps fewer bookmarks. *)
Lemma first_seen_fmap_length (f : CanonicalKey -> CanonicalKey)
    (l : list CanonicalKey) :
  (length (first_seen (f <$> l)) <= length (first_seen l))%nat.
Proof.
  rewrite <- (length_fmap f (first_seen l)).
  apply submseteq_length, NoDup_submseteq; [apply first_seen_NoDup|].
  intros y (x & -> & Hx)%elem_of_first_seen%list_elem_of_fmap.
  apply list_elem_of_fmap. exists x. split; [done|].
  by apply elem_of_first_seen.
Qed.


Lemma pass_coarser (f g : bookmark -> CanonicalKey)
    (h : CanonicalKey -> CanonicalKey) (l : list bookmark) :
  (forall b, f b = h (g b)) ->
  (length (Dedup.pass f l).1 <= length (Dedup.pass g l).1)%nat.
Proof.
  intros Hfg.
  rewrite <- (length_fmap f (Dedup.pass f l).1).
  rewrite <- (length_fmap g (Dedup.pass g l).1).
  rewrite !pass_kept_keys.
  replace (f <$> l) with (h <$> (g <$> l)).
  - apply first_seen_fmap_length.
  - rewrite <- list_fmap_compose. apply list_fmap_ext. intros _ b _.
    cbn. by rewrite Hfg.
Qed.

(** X1: in both scripts the keys of the kept bookmarks are the keys of
    the input, each one once, in the order in which they first occur: no
    two kept bookmarks share a key and no key of the input is lost. *)
Theorem kept_keys_first_seen (mode : string)
    (strict_protocol ignore_slash : bool) (all_bookmarks : list bookmark) :
  let plain := Dedup.deduplicate_and_generate_report mode all_bookmarks in
  let robust :=
    Dedup.deduplicate_and_generate_report_robust mode strict_protocol
      ignore_slash all_bookmarks in
  let key_robust := Dedup.key_normalized mode strict_protocol ignore_slash in
  (Dedup.key_plain mode <$> Dedup.kept plain
   = first_seen (Dedup.key_plain mode <$> all_bookmarks) /\
   NoDup (Dedup.key_plain mode <$> Dedup.kept plain)) /\
  (key_robust <$> Dedup.kept robust
   = first_seen (key_robust <$> all_bookmarks) /\
   NoDup (key_robust <$> Dedup.kept robust)).
Proof.
  intros plain robust key_robust. subst plain robust key_robust. split.
  - pose proof (pass_kept_keys (Dedup.key_plain mode) all_bookmarks) as H.
    unfold Dedup.deduplicate_and_generate_report.
    destruct (Dedup.pass _ all_bookmarks) as [u d]. cbn [fst Dedup.kept] in *.
    split; [done|]. rewrite H. apply first_seen_NoDup.
  - pose proof (pass_kept_keys
        (Dedup.key_normalized mode strict_protocol ignore_slash)
        all_bookmarks) as H.
    unfold Dedup.deduplicate_and_generate_report_robust.
    destruct (Dedup.pass _ all_bookmarks) as [u d]. cbn [fst Dedup.kept] in *.
    split; [done|]. rewrite H. apply first_seen_NoDup.
Qed.

(** X2: in both scripts the kept bookmarks are a subsequence of the
    input: the pass drops bookmarks and neither reorders nor alters
    them. *)
Theorem kept_is_subsequence (mode : string)
    (strict_protocol ignore_slash : bool) (all_bookmarks : list bookmark) :
  Dedup.kept (Dedup.deduplicate_and_generate_report mode all_bookmarks)
  `sublist_of` all_bookmarks /\
  Dedup.kept
    (Dedup.deduplicate_and_generate_report_robust mode strict_protocol
       ignore_slash all_bookmarks)
  `sublist_of` all_bookmarks.
Proof.
  split.
  - pose proof (pass_kept_sublist (Dedup.key_plain mode) all_bookmarks) as H.
    unfold Dedup.deduplicate_and_generate_report.
    by destruct (Dedup.pass _ all_bookmarks).
  - pose proof (pass_kept_sublist
        (Dedup.key_normalized mode strict_protocol ignore_slash)
        all_bookmarks) as H.
    unfold Dedup.deduplicate_and_generate_report_robust.
    by destruct (Dedup.pass _ all_bookmarks).
Qed.

(** X3: deduplication is idempotent: run again on the bookmarks it kept,
    with the same options, each script keeps them all and reports no
    duplicate group. *)
Theorem dedup_idempotent (mode : string)
    (strict_protocol ignore_slash : bool) (all_bookmarks : list bookmark) :
  let plain := Dedup.deduplicate_and_generate_report mode all_bookmarks in
  let robust :=
    Dedup.deduplicate_and_generate_report_robust mode strict_protocol
      ignore_slash all_bookmarks in
  Dedup.deduplicate_and_generate_report mode (Dedup.kept plain)
  = Dedup.Result (Dedup.kept plain) [] [] /\
  Dedup.deduplicate_and_generate_report_robust mode strict_protocol
    ignore_slash (Dedup.kept robust)
  = Dedup.Result (Dedup.kept robust) [] [].
Proof.
  intros plain robust. split.
  - assert (NoDup (Dedup.key_plain mode <$> Dedup.kept plain)) as Hnd.
    { subst plain. unfold Dedup.deduplicate_and_generate_report.
      pose proof (pass_kept_keys (Dedup.key_plain mode) all_bookmarks) as H.
      destruct (Dedup.pass _ all_bookmarks) as [u d].
      cbn [fst Dedup.kept] in *. rewrite H. apply first_seen_NoDup. }
    unfold Dedup.deduplicate_and_generate_report at 1.
    rewrite (pass_distinct _ _ Hnd). by rewrite duplicate_groups_fresh.
  - assert (NoDup (Dedup.key_normalized mode strict_protocol ignore_slash
                   <$> Dedup.kept robust)) as Hnd.
    { subst robust. unfold Dedup.deduplicate_and_generate_report_robust.
      pose proof (pass_kept_keys
          (Dedup.key_normalized mode strict_protocol ignore_slash)
          all_bookmarks) as H.
      destruct (Dedup.pass _ all_bookmarks) as [u d].
      cbn [fst Dedup.kept] in *. rewrite H. apply first_seen_NoDup. }
    unfold Dedup.deduplicate_and_generate_report_robust at 1.
    rewrite (pass_distinct _ _ Hnd). by rewrite duplicate_groups_fresh.
Qed.

(** X4: in both scripts, the report has no duplicate group exactly when
    every bookmark of the input is kept, which is exactly when the keys
    of the input are pairwise distinct. *)
Theorem no_duplicates_iff (mode : string)
    (strict_protocol ignore_slash : bool) (all_bookmarks : list bookmark) :
  let plain := Dedup.deduplicate_and_generate_report mode all_bookmarks in
  let robust :=
    Dedup.deduplicate_and_generate_report_robust mode strict_protocol
      ignore_slash all_bookmarks in
  let key_robust := Dedup.key_normalized mode strict_protocol ignore_slash in
  ((Dedup.groups plain = [] <-> Dedup.kept plain = all_bookmarks) /\
   (Dedup.kept plain = all_bookmarks
    <-> NoDup (Dedup.key_plain mode <$> all_bookmarks))) /\
  ((Dedup.groups robust = [] <-> Dedup.kept robust = all_bookmarks) /\
   (Dedup.kept robust = all_bookmarks
    <-> NoDup (key_robust <$> all_bookmarks))).
Proof.
  intros plain robust key_robust. subst plain robust key_robust. split.
  - pose proof (pass_kept_all (Dedup.key_plain mode) all_bookmarks) as H1.
    pose proof (pass_kept_all_distinct (Dedup.key_plain mode) all_bookmarks)
      as H2.
    unfold Dedup.deduplicate_and_generate_report.
    destruct (Dedup.pass _ all_bookmarks) as [u d].
    cbn [fst snd Dedup.kept Dedup.groups] in *. by split.
  - pose proof (pass_kept_all
        (Dedup.key_normalized mode strict_protocol ignore_slash)
        all_bookmarks) as H1.
    pose proof (pass_kept_all_distinct
        (Dedup.key_normalized mode strict_protocol ignore_slash)
        all_bookmarks) as H2.
    unfold Dedup.deduplicate_and_generate_report_robust.
    destruct (Dedup.pass _ all_bookmarks) as [u d].
    cbn [fst snd Dedup.kept Dedup.groups] in *. by split.
Qed.

Lemma no_duplicates_iff_witness :
  Dedup.groups
    (Dedup.deduplicate_and_generate_report "url-title"
       [("a", "1"); ("a", "2"); ("b", "1")]) = [].
Proof.
  apply (no_duplicates_iff "url-title" false false
           [("a", "1"); ("a", "2"); ("b", "1")]).
  reflexivity.
Defined.

Lemma pass_report (key_of : bookmark -> CanonicalKey) (l : list bookmark) :
  let dg := Dedup.duplicate_groups (Dedup.pass key_of l).2 in
  NoDup (Dedup.sorted_groups dg).*1 /\
  (forall k g,
      (k, g) ∈ Dedup.sorted_groups dg ->
      Dedup.removed g <> [] /\
      occurrences key_of k l = Dedup.original g :: Dedup.removed g /\
      Dedup.original g ∈ (Dedup.pass key_of l).1).
Proof.
  intros dg.
  assert (Dedup.sorted_groups dg ≡ₚ dg) as Hp
    by apply sorted_descending_perm.
  split.
  - rewrite Hp. eapply sublist_NoDup; [apply (pass_keys_NoDup key_of l)|].
    apply fmap_sublist, sublist_filter.
  - intros k g Hin. rewrite Hp in Hin. by apply pass_group.
Qed.

(** X5: in both scripts every group of the report has at least one
    removed occurrence, its original followed by its removed occurrences
    are exactly the bookmarks of the input with the key of the group, its
    original is among the kept bookmarks, and no key has two groups. *)
Theorem reported_groups_are_duplicates (mode : string)
    (strict_protocol ignore_slash : bool) (all_bookmarks : list bookmark)
    (k : CanonicalKey) (g : Dedup.group) :
  let plain := Dedup.deduplicate_and_generate_report mode all_bookmarks in
  let robust :=
    Dedup.deduplicate_and_generate_report_robust mode strict_protocol
      ignore_slash all_bookmarks in
  let key_robust := Dedup.key_normalized mode strict_protocol ignore_slash in
  (NoDup (Dedup.report plain).*1 /\
   ((k, g) ∈ Dedup.report plain ->
    Dedup.removed g <> [] /\
    occurrences (Dedup.key_plain mode) k all_bookmarks
    = Dedup.original g :: Dedup.removed g /\
    Dedup.original g ∈ Dedup.kept plain)) /\
  (NoDup (Dedup.report robust).*1 /\
   ((k, g) ∈ Dedup.report robust ->
    Dedup.removed g <> [] /\
    occurrences key_robust k all_bookmarks
    = Dedup.original g :: Dedup.removed g /\
    Dedup.original g ∈ Dedup.kept robust)).
Proof.
  intros plain robust key_robust. subst plain robust key_robust. split.
  - pose proof (pass_report (Dedup.key_plain mode) all_bookmarks) as [H1 H2].
    unfold Dedup.deduplicate_and_generate_report.
    destruct (Dedup.pass _ all_bookmarks) as [u d].
    cbn [fst snd Dedup.kept Dedup.report] in *. split; [done|]. apply H2.
  - pose proof (pass_report
        (Dedup.key_normalized mode strict_protocol ignore_slash)
        all_bookmarks) as [H1 H2].
    unfold Dedup.deduplicate_and_generate_report_robust.
    destruct (Dedup.pass _ all_bookmarks) as [u d].
    cbn [fst snd Dedup.kept Dedup.report] in *. split; [done|]. apply H2.
Qed.

Lemma reported_groups_are_duplicates_witness :
  occurrences (Dedup.key_plain "url") (KUrl "a")
    [("a", "1"); ("b", "2"); ("a", "3")]
  = [("a", "1"); ("a", "3")].
Proof.
  apply (reported_groups_are_duplicates "url" false false
           [("a", "1"); ("b", "2"); ("a", "3")]
           (KUrl "a") (Dedup.Group ("a", "1") [("a", "3")])).
  vm_compute. apply list_elem_of_here.
Defined.


(** X7: the mode [url] is the coarser one: under the same options it
    keeps at most as many bookmarks as any other mode, and so removes at
    least as many. *)
Theorem url_mode_keeps_fewer (mode : string)
    (strict_protocol ignore_slash : bool) (all_bookmarks : list bookmark) :
  let plain m := Dedup.deduplicate_and_generate_report m all_bookmarks in
  let robust m :=
    Dedup.deduplicate_and_generate_report_robust m strict_protocol
      ignore_slash all_bookmarks in
  ((length (Dedup.kept (plain "url")) <= length (Dedup.kept (plain mode)))%nat
   /\
   (Dedup.total_removed (Dedup.groups (plain mode))
    <= Dedup.total_removed (Dedup.groups (plain "url")))%nat) /\
  ((length (Dedup.kept (robust "url"))
    <= length (Dedup.kept (robust mode)))%nat /\
   (Dedup.total_removed (Dedup.groups (robust mode))
    <= Dedup.total_removed (Dedup.groups (robust "url")))%nat).
Proof.
  intros plain robust. subst plain robust. cbv beta.
  unfold Dedup.deduplicate_and_generate_report_robust,
    Dedup.deduplicate_and_generate_report.
  split.
  - pose proof (pass_coarser (Dedup.key_plain "url") (Dedup.key_plain mode)
                  (fun k => KUrl (key_url k)) all_bookmarks) as Hle.
    pose proof (pass_count (Dedup.key_plain "url") all_bookmarks) as H1.
    pose proof (pass_count (Dedup.key_plain mode) all_bookmarks) as H2.
    destruct (Dedup.pass (Dedup.key_plain "url") all_bookmarks) as [u1 d1].
    destruct (Dedup.pass (Dedup.key_plain mode) all_bookmarks) as [u2 d2].
    cbn [fst snd Dedup.kept Dedup.groups] in *.
    rewrite !total_removed_duplicate_groups.
    assert (length u1 <= length u2)%nat; [|lia].
    apply Hle. intros b. unfold Dedup.key_plain.
    by destruct (decide (mode = "url")).
  - pose proof (pass_coarser
                  (Dedup.key_normalized "url" strict_protocol ignore_slash)
                  (Dedup.key_normalized mode strict_protocol ignore_slash)
                  (fun k => KUrl (key_url k)) all_bookmarks) as Hle.
    pose proof (pass_count
                  (Dedup.key_normalized "url" strict_protocol ignore_slash)
                  all_bookmarks) as H1.
    pose proof (pass_count
                  (Dedup.key_normalized mode strict_protocol ignore_slash)
                  all_bookmarks) as H2.
    destruct (Dedup.pass (Dedup.key_normalized "url" _ _) all_bookmarks)
      as [u1 d1].
    destruct (Dedup.pass (Dedup.key_normalized mode _ _) all_bookmarks)
      as [u2 d2].
    cbn [fst snd Dedup.kept Dedup.groups] in *.
    rewrite !total_removed_duplicate_groups.
    assert (length u1 <= length u2)%nat; [|lia].
    apply Hle. intros b. unfold Dedup.key_normalized.
    by destruct (decide (mode = "url")).
Qed.

(** ** URL normalisation, as a whole *)

Lemma rstrip_slash_fixed (s : string) :
  PyStr.last s <> Some "/"%char -> PyStr.rstrip_chars "/" s = s.
Proof.
  induction s as [|c s IH]; [done|]. intros Hl.
  cbn [PyStr.rstrip_chars]. destruct s as [|d s'].
  - cbn. rewrite orb_false_r.
    destruct (Ascii.eqb_spec c "/"%char) as [->|]; [by destruct Hl|done].
  - rewrite IH; [done|]. exact Hl.
Qed.

Lemma after_protocol_prefix (url : string) (strict_protocol : bool) :
  exists pre,
    url = pre +:+ after_protocol url strict_protocol /\
    (pre = "" \/
     strict_protocol = false /\ (pre = "http://" \/ pre = "https://")).
Proof.
  unfold after_protocol. destruct strict_protocol; cbn [negb].
  { exists "". by split; [|left]. }
  unfold Re.sub_bos. rewrite https_match.
  destruct (PyStr.startswith "https://" url) eqn:E1.
  - apply startswith_inv in E1 as [post ->].
    exists "https://". split; [done|]. right. split; [done|by right].
  - destruct (PyStr.startswith "http://" url) eqn:E2.
    + apply startswith_inv in E2 as [post ->].
      exists "http://". split; [done|]. right. split; [done|by left].
    + exists "". by split; [|left].
Qed.

(** X8: collapsing the trailing slashes is idempotent: [normalize_url],
    applied under [strict_protocol] to one of its results, returns it
    unchanged.  Collapsing the protocol is not: a url with two schemes
    loses one at each application. *)
Theorem normalize_url_idempotent (url : string)
    (strict_protocol ignore_slash : bool) :
  Dedup.normalize_url
    (Dedup.normalize_url url strict_protocol ignore_slash) true ignore_slash
  = Dedup.normalize_url url strict_protocol ignore_slash /\
  Dedup.normalize_url
    (Dedup.normalize_url "http://https://x" false ignore_slash)
    false ignore_slash
  <> Dedup.normalize_url "http://https://x" false ignore_slash.
Proof.
  split; [|by destruct ignore_slash].
  rewrite (normalize_url_unfold url). cbv zeta.
  set (u := after_protocol url strict_protocol).
  destruct ignore_slash; [|done].
  destruct (PyStr.contains "/" (PyStr.slice_from (PyStr.find u "://" + 3) u))
    eqn:E.
  - rewrite normalize_url_unfold. unfold after_protocol. cbn [negb]. cbv zeta.
    rewrite (rstrip_slash_fixed (PyStr.rstrip_chars "/" u))
      by apply rstrip_slash_last.
    match goal with |- (if ?c then _ else _) = _ => by destruct c end.
  - rewrite normalize_url_unfold. unfold after_protocol. cbn [negb]. cbv zeta.
    by rewrite E.
Qed.

(** X9: [normalize_url] only removes: its result is the url less, at the
    front, nothing or (without [strict_protocol]) one [http://] or
    [https://], and less, at the back, a run of slashes, which is empty
    without [ignore_slash]. *)
Theorem normalize_url_only_removes (url : string)
    (strict_protocol ignore_slash : bool) :
  exists (pre : string) (n : nat),
    url = pre +:+ Dedup.normalize_url url strict_protocol ignore_slash
              +:+ PyStr.replicate n "/"%char /\
    (pre = "" \/
     strict_protocol = false /\ (pre = "http://" \/ pre = "https://")) /\
    (ignore_slash = false -> n = 0%nat).
Proof.
  destruct (after_protocol_prefix url strict_protocol) as (pre & Hpre & Hcase).
  rewrite normalize_url_unfold. cbv zeta.
  set (u := after_protocol url strict_protocol) in *.
  destruct ignore_slash.
  - destruct (PyStr.contains "/" _).
    + destruct (rstrip_slash_decompose u) as [n Hn].
      exists pre, n. split; [by rewrite <- Hn|]. by split.
    + exists pre, 0%nat. cbn. rewrite append_nil_r. by split.
  - exists pre, 0%nat. cbn. rewrite append_nil_r. by split.
Qed.

Lemma normalize_url_only_removes_witness :
  exists (pre : string) (n : nat),
    "https://a.com/b//" = pre +:+ Dedup.normalize_url "https://a.com/b//"
                                     false true
                              +:+ PyStr.replicate n "/"%char /\
    (pre = "" \/ false = false /\ (pre = "http://" \/ pre = "https://")) /\
    (true = false -> n = 0%nat).
Proof. exact (normalize_url_only_removes "https://a.com/b//" false true). Defined.

(** ** White space *)

Section StripFacts.

Lemma lstrip_first (s : string) (c : ascii) :
  first (PyStr.lstrip s) = Some c -> PyStr.is_space c = false.
Proof.
  induction s as [|x s IH]; [done|]. cbn [PyStr.lstrip].
  destruct (PyStr.is_space x) eqn:E; [done|]. cbn. by intros [= <-].
Qed.

Lemma rstrip_last (s : string) (c : ascii) :
  PyStr.last (PyStr.rstrip s) = Some c -> PyStr.is_space c = false.
Proof.
  induction s as [|x s IH]; [done|]. cbn [PyStr.rstrip].
  destruct (PyStr.rstrip s) as [|d r] eqn:E.
  - destruct (PyStr.is_space x) eqn:Ex; [done|]. cbn. by intros [= <-].
  - intros H. apply IH. exact H.
Qed.

(** [rstrip] keeps the first character of what it leaves. *)
Lemma rstrip_first (s : string) (c : ascii) :
  first (PyStr.rstrip s) = Some c -> first s = Some c.
Proof.
  destruct s as [|x s]; [done|]. cbn [PyStr.rstrip].
  destruct (PyStr.rstrip s); [|done].
  by destruct (PyStr.is_space x).
Qed.

Lemma strip_stripped (s : string) : stripped (PyStr.strip s).
Proof.
  unfold PyStr.strip. split; intros c Hc.
  - apply rstrip_first in Hc. by eapply lstrip_first.
  - by eapply rstrip_last.
Qed.

Lemma rstrip_fixed (s : string) :
  (forall c, PyStr.last s = Some c -> PyStr.is_space c = false) ->
  PyStr.rstrip s = s.
Proof.
  induction s as [|x s IH]; [done|]. intros Hl.
  cbn [PyStr.rstrip]. destruct s as [|d s'].
  - cbn. by rewrite (Hl x eq_refl).
  - rewrite IH; [done|]. exact Hl.
Qed.

Lemma lstrip_fixed (s : string) :
  (forall c, first s = Some c -> PyStr.is_space c = false) ->
  PyStr.lstrip s = s.
Proof.
  destruct s as [|x s]; [done|]. intros Hf. cbn.
  by rewrite (Hf x eq_refl).
Qed.

Lemma strip_fixed (s : string) : stripped s -> PyStr.strip s = s.
Proof.
  intros [Hf Hl]. unfold PyStr.strip.
  rewrite lstrip_fixed by done. by apply rstrip_fixed.
Qed.

End StripFacts.

(** ** The event-driven parsers, further *)

Section StreamMore.

Import Stream.

Variable unquote : string -> string.

Lemma size_list_to_set_le (l : list CanonicalKey) :
  (size (list_to_set l : gset CanonicalKey) <= length l)%nat.
Proof.
  induction l as [|x l IH]; cbn [list_to_set length].
  - by rewrite size_empty.
  - rewrite size_union_alt, size_singleton.
    assert (size (list_to_set l ∖ {[x]} : gset CanonicalKey)
            <= size (list_to_set l : gset CanonicalKey))%nat
      by (by apply subseteq_size, subseteq_difference_l).
    lia.
Qed.

Lemma size_add_le (x : string) (X : gset string) :
  (size ({[x]} ∪ X) <= S (size X))%nat.
Proof.
  rewrite size_union_alt, size_singleton.
  assert (size (X ∖ {[x]}) <= size X)%nat
    by (by apply subseteq_size, subseteq_difference_l).
  lia.
Qed.

Lemma handle_folder_count (sc : script) (p : BookmarkParser) (e : event) :
  (size (folders p) <= total_folder_counter p)%nat ->
  (size (folders (handle unquote sc p e))
   <= total_folder_counter (handle unquote sc p e))%nat.
Proof.
  intros Hp. destruct e as [tag attrs|data|tag]; cbn.
  - unfold handle_starttag. by repeat case_decide.
  - unfold handle_data. by destruct (is_in_a_tag p), (is_in_h3_tag p).
  - unfold handle_endtag. repeat case_decide; try done. cbn.
    destruct sc.
    + pose proof (size_add_le (PyStr.strip (current_folder p)) (folders p)).
      lia.
    + destruct (PyStr.truthy _); [|lia].
      pose proof (size_add_le (PyStr.strip (current_folder p)) (folders p)).
      lia.
Qed.

Lemma feed_folder_count (sc : script) (evs : list event) (p : BookmarkParser) :
  (size (folders p) <= total_folder_counter p)%nat ->
  (size (folders (feed unquote sc p evs))
   <= total_folder_counter (feed unquote sc p evs))%nat.
Proof.
  revert p. induction evs as [|e evs IH]; intros p Hp; [done|].
  cbn. apply IH. by apply handle_folder_count.
Qed.

(** The folder counter counts the closing [h3] tags. *)
Lemma feed_folder_counter (sc : script) (evs : list event) (p : BookmarkParser) :
  total_folder_counter (feed unquote sc p evs)
  = (total_folder_counter p
     + length (filter (fun e => e = EndTag "h3") evs))%nat.
Proof.
  revert p. induction evs as [|e evs IH]; intros p.
  - cbn. lia.
  - cbn [feed fold_left]. unfold feed in IH. rewrite IH, filter_cons.
    destruct (decide (e = EndTag "h3")) as [->|Hne].
    + cbn. unfold handle_endtag.
      rewrite decide_False by done. rewrite decide_True by done. cbn. lia.
    + assert (total_folder_counter (handle unquote sc p e)
              = total_folder_counter p) as ->; [|done].
      destruct e as [tag attrs|data|tag]; cbn.
      * unfold handle_starttag. by repeat case_decide.
      * unfold handle_data. by destruct (is_in_a_tag p), (is_in_h3_tag p).
      * unfold handle_endtag. repeat case_decide; try done. by subst.
Qed.

(** The multi-file parser is the two-file parser without the empty
    folder name. *)
Lemma handle_without_empty (p : BookmarkParser) (e : event) :
  handle unquote MultiFile (without_empty_folder p) e
  = without_empty_folder (handle unquote TwoFile p e).
Proof.
  destruct e as [tag attrs|data|tag]; cbn.
  - unfold handle_starttag. by repeat case_decide.
  - unfold handle_data. cbn.
    by destruct (is_in_a_tag p), (is_in_h3_tag p).
  - unfold handle_endtag. repeat case_decide; try done.
    unfold without_empty_folder. cbn -[PyStr.strip]. f_equal.
    destruct (PyStr.strip (current_folder p)) as [|c n] eqn:E; cbn.
    + apply set_eq. intros x.
      rewrite !elem_of_difference, elem_of_union, elem_of_singleton.
      split; [intros [? ?]; by split; [right|]|].
      intros [[->|?] ?]; by split.
    + apply set_eq. intros x.
      rewrite elem_of_union, !elem_of_difference, elem_of_union,
        !elem_of_singleton.
      split; [intros [->|[? ?]]; [by split; [left|]|by split; [right|]]|].
      intros [[->|?] ?]; [by left|by right].
Qed.

Lemma feed_without_empty (evs : list event) (p : BookmarkParser) :
  feed unquote MultiFile (without_empty_folder p) evs
  = without_empty_folder (feed unquote TwoFile p evs).
Proof.
  revert p. induction evs as [|e evs IH]; intros p; [done|].
  cbn. unfold feed in IH. by rewrite handle_without_empty, IH.
Qed.

End StreamMore.

Section StreamFilter.

Import Stream.

Variable unquote : string -> string.

(** Filtering while parsing is parsing and filtering afterwards. *)
Lemma handle_filter_commute (sc : script) (p : BookmarkParser) (e : event) :
  filter_enabled p = false ->
  handle unquote sc (filtered p) e = filtered (handle unquote sc p e).
Proof.
  intros Hf. destruct e as [tag attrs|data|tag]; cbn.
  - unfold handle_starttag. by repeat case_decide.
  - unfold handle_data. cbn.
    by destruct (is_in_a_tag p), (is_in_h3_tag p).
  - unfold handle_endtag. repeat case_decide; try done.
    unfold filtered. cbn -[PyStr.strip allowed_prefixes]. f_equal.
    destruct (current_url p) as [[|c u]|]; try done.
    unfold add_bookmark. cbn -[PyStr.strip allowed_prefixes]. rewrite Hf.
    set (n := if decode_enabled p then unquote (String c u) else String c u).
    repeat case_decide.
    + rewrite filter_app, filter_cons, filter_nil.
      change (passes_filter (KUrl n))
        with (PyStr.startswith_any allowed_prefixes (PyStr.lower n)).
      destruct (PyStr.startswith_any allowed_prefixes (PyStr.lower n));
        cbn [negb].
      * by rewrite decide_True by done.
      * rewrite decide_False by done. by rewrite app_nil_r.
    + rewrite filter_app, filter_cons, filter_nil.
      change (passes_filter (KPair n (PyStr.strip (current_title p))))
        with (PyStr.startswith_any allowed_prefixes (PyStr.lower n)).
      destruct (PyStr.startswith_any allowed_prefixes (PyStr.lower n));
        cbn [negb].
      * by rewrite decide_True by done.
      * rewrite decide_False by done. by rewrite app_nil_r.
    + by destruct (PyStr.startswith_any allowed_prefixes (PyStr.lower n)).
Qed.

Lemma handle_filter_off (sc : script) (p : BookmarkParser) (e : event) :
  filter_enabled (handle unquote sc p e) = filter_enabled p.
Proof.
  pose proof (handle_config unquote sc p e) as H. unfold config in H.
  congruence.
Qed.

Lemma feed_filter_commute (sc : script) (evs : list event) (p : BookmarkParser) :
  filter_enabled p = false ->
  feed unquote sc (filtered p) evs = filtered (feed unquote sc p evs).
Proof.
  revert p. induction evs as [|e evs IH]; intros p Hf; [done|].
  cbn. unfold feed in IH. rewrite handle_filter_commute by done.
  apply IH. by rewrite handle_filter_off.
Qed.

(** In the mode [url] the texts play no part in the bookmarks. *)
Lemma handle_same_links (sc : script) (p q : BookmarkParser) (e : event) :
  mode p = "url" -> same_links p q ->
  same_links (handle unquote sc p e) (handle unquote sc q e).
Proof.
  intros Hm (Hmode & Hfil & Hdec & Hbm & Hcur). unfold same_links.
  destruct e as [tag attrs|data|tag]; cbn.
  - unfold handle_starttag. by repeat case_decide.
  - unfold handle_data.
    by destruct (is_in_a_tag p), (is_in_h3_tag p),
                (is_in_a_tag q), (is_in_h3_tag q).
  - unfold handle_endtag. repeat case_decide; try done.
    cbn -[PyStr.strip allowed_prefixes]. rewrite <- Hcur.
    repeat split; try done.
    destruct (current_url p) as [[|c u]|]; try done.
    unfold add_bookmark. rewrite <- Hmode, <- Hfil, <- Hdec, <- Hbm, Hm.
    by rewrite decide_True by done.
Qed.

Lemma handle_data_same_links (sc : script) (p q : BookmarkParser)
    (data : string) :
  same_links p q -> same_links p (handle unquote sc q (Data data)).
Proof.
  intros H. unfold same_links in *. cbn. unfold handle_data.
  by destruct (is_in_a_tag q), (is_in_h3_tag q).
Qed.

Lemma handle_mode (sc : script) (p : BookmarkParser) (e : event) :
  mode (handle unquote sc p e) = mode p.
Proof.
  pose proof (handle_config unquote sc p e) as H. unfold config in H.
  congruence.
Qed.

Lemma feed_cons (sc : script) (p : BookmarkParser) (e : event)
    (evs : list event) :
  feed unquote sc p (e :: evs) = feed unquote sc (handle unquote sc p e) evs.
Proof. reflexivity. Qed.

Lemma feed_same_links (sc : script) (evs : list event) (p q : BookmarkParser) :
  mode p = "url" -> same_links p q ->
  same_links (feed unquote sc p (filter (fun e => is_markup e = true) evs))
             (feed unquote sc q evs).
Proof.
  revert p q. induction evs as [|e evs IH]; intros p q Hm Hpq; [done|].
  rewrite filter_cons, (feed_cons sc q).
  destruct (decide (is_markup e = true)) as [He|He].
  - rewrite feed_cons. apply IH; [by rewrite handle_mode|].
    by apply handle_same_links.
  - destruct e as [tag attrs|data|tag]; try done.
    apply IH; [done|]. by apply handle_data_same_links.
Qed.

(** The keys a parser holds are clean. *)
Lemma handle_clean_keys (sc : script) (p : BookmarkParser) (e : event) :
  Forall (clean_key (mode p) (decode_enabled p)) (bookmarks p) ->
  Forall (clean_key (mode p) (decode_enabled p))
    (bookmarks (handle unquote sc p e)).
Proof.
  intros Hall. destruct (decide (e = EndTag "a")) as [->|He].
  2: by rewrite handle_bookmarks.
  cbn. unfold handle_endtag. rewrite decide_True by done.
  cbn -[PyStr.strip allowed_prefixes].
  destruct (current_url p) as [[|c u]|]; try done.
  unfold add_bookmark. cbv zeta.
  match goal with |- Forall _ (if ?b then _ else _) => destruct b end;
    [|done].
  repeat case_decide; try done.
  - apply Forall_app; split; [done|]. constructor; [|constructor].
    unfold clean_key. cbn [key_of_mode key_title key_url].
    split; [done|]. split; [by split|]. by intros ->.
  - apply Forall_app; split; [done|]. constructor; [|constructor].
    unfold clean_key. cbn [key_of_mode key_title key_url].
    split; [done|]. split; [apply strip_stripped|]. by intros ->.
Qed.

Lemma feed_clean_keys (sc : script) (evs : list event) (p : BookmarkParser) :
  Forall (clean_key (mode p) (decode_enabled p)) (bookmarks p) ->
  Forall (clean_key (mode p) (decode_enabled p))
    (bookmarks (feed unquote sc p evs)).
Proof.
  revert p. induction evs as [|e evs IH]; intros p Hp; [done|].
  cbn. unfold feed in IH.
  pose proof (handle_config unquote sc p e) as Hc. unfold config in Hc.
  injection Hc as Hm _ Hd. rewrite <- Hm, <- Hd. apply IH.
  rewrite Hm, Hd. by apply handle_clean_keys.
Qed.

End StreamFilter.

(** X10: what the report prints of a file is consistent: the unique
    bookmarks are at most the total bookmarks, the unique folders at most
    the total folders, and the total folders are the closing [h3] tags of
    the file, whether or not an [h3] was open. *)
Theorem unique_counts_bounded (unquote : string -> string)
    (sc : Stream.script) (mode : string) (filter_enabled decode_enabled : bool)
    (content : list Stream.event) :
  let d := Stream.parse_bookmarks_file_fast unquote sc mode filter_enabled
             decode_enabled content in
  (size (Stream.b_set d) <= Stream.b_total d)%nat /\
  (size (Stream.f_set d) <= Stream.f_total d)%nat /\
  Stream.f_total d
  = length (filter (fun e => e = Stream.EndTag "h3") content).
Proof.
  intros d. subst d. unfold Stream.parse_bookmarks_file_fast.
  cbn [Stream.b_set Stream.b_total Stream.f_set Stream.f_total].
  split; [apply size_list_to_set_le|]. split.
  - apply feed_folder_count. cbn. by rewrite size_empty.
  - by rewrite feed_folder_counter.
Qed.

(** X11: on the same events the multi-file parser returns what the
    two-file parser returns, less the empty folder name: the bookmarks,
    the two totals are the same. *)
Theorem multi_file_is_two_file_less_empty (unquote : string -> string)
    (mode : string) (filter_enabled decode_enabled : bool)
    (content : list Stream.event) :
  let two := Stream.parse_bookmarks_file_fast unquote Stream.TwoFile mode
               filter_enabled decode_enabled content in
  let multi := Stream.parse_bookmarks_file_fast unquote Stream.MultiFile mode
                 filter_enabled decode_enabled content in
  Stream.b_set multi = Stream.b_set two /\
  Stream.b_total multi = Stream.b_total two /\
  Stream.f_total multi = Stream.f_total two /\
  Stream.f_set multi = Stream.f_set two ∖ {[""]}.
Proof.
  intros two multi. subst two multi. unfold Stream.parse_bookmarks_file_fast.
  cbn [Stream.b_set Stream.b_total Stream.f_set Stream.f_total].
  assert (Stream.init mode filter_enabled decode_enabled
          = without_empty_folder
              (Stream.init mode filter_enabled decode_enabled)) as Hi.
  { unfold without_empty_folder, Stream.init. cbn. f_equal. }
  assert (Stream.feed unquote Stream.MultiFile
            (Stream.init mode filter_enabled decode_enabled) content
          = without_empty_folder
              (Stream.feed unquote Stream.TwoFile
                 (Stream.init mode filter_enabled decode_enabled) content))
    as ->; [|done].
  rewrite <- feed_without_empty. by rewrite <- Hi.
Qed.

(** X12: the protocol filter commutes with parsing: the keys of a file
    parsed with the filter are the keys of the file parsed without it
    that pass the test; the filter never adds a bookmark and leaves the
    folders alone. *)
Theorem filter_is_a_filter (unquote : string -> string)
    (sc : Stream.script) (mode : string) (decode_enabled : bool)
    (content : list Stream.event) (k : CanonicalKey) :
  let off := Stream.parse_bookmarks_file_fast unquote sc mode false
               decode_enabled content in
  let on := Stream.parse_bookmarks_file_fast unquote sc mode true
              decode_enabled content in
  (k ∈ Stream.b_set on <-> k ∈ Stream.b_set off /\ passes_filter k = true) /\
  (Stream.b_total on <= Stream.b_total off)%nat /\
  Stream.f_set on = Stream.f_set off /\
  Stream.f_total on = Stream.f_total off.
Proof.
  intros off on. subst off on. unfold Stream.parse_bookmarks_file_fast.
  cbn [Stream.b_set Stream.b_total Stream.f_set Stream.f_total].
  change (Stream.init mode true decode_enabled)
    with (filtered (Stream.init mode false decode_enabled)).
  rewrite feed_filter_commute by done.
  set (p := Stream.feed unquote sc (Stream.init mode false decode_enabled)
              content).
  cbn [filtered Stream.bookmarks Stream.folders Stream.total_folder_counter].
  split; [|split; [apply length_filter|done]].
  rewrite !elem_of_list_to_set, list_elem_of_filter. tauto.
Qed.

(** X13: a mode other than [url] and [url-title] is no error: the file
    is parsed and not one bookmark comes out of it. *)
Theorem unknown_mode_yields_nothing (unquote : string -> string)
    (sc : Stream.script) (mode : string) (filter_enabled decode_enabled : bool)
    (content : list Stream.event) :
  mode <> "url" -> mode <> "url-title" ->
  let d := Stream.parse_bookmarks_file_fast unquote sc mode filter_enabled
             decode_enabled content in
  Stream.b_set d = ∅ /\ Stream.b_total d = 0%nat.
Proof.
  intros H1 H2 d. subst d. unfold Stream.parse_bookmarks_file_fast.
  cbn [Stream.b_set Stream.b_total].
  pose proof (feed_clean_keys unquote sc content
                (Stream.init mode filter_enabled decode_enabled)) as Hall.
  cbn [Stream.init Stream.mode Stream.decode_enabled Stream.bookmarks] in Hall.
  specialize (Hall (Forall_nil_2 _)).
  destruct (Stream.bookmarks _) as [|k l]; [done|].
  apply Forall_cons in Hall as [[Hk _] _]. by destruct k.
Qed.

Lemma unknown_mode_yields_nothing_witness :
  Stream.b_total
    (Stream.parse_bookmarks_file_fast (fun s => s) Stream.TwoFile "title"
       false false
       [Stream.StartTag "a" [("href", Some "http://x.com")];
        Stream.Data "X"; Stream.EndTag "a"]) = 0%nat.
Proof.
  apply (unknown_mode_yields_nothing (fun s => s) Stream.TwoFile "title"
           false false
           [Stream.StartTag "a" [("href", Some "http://x.com")];
            Stream.Data "X"; Stream.EndTag "a"]); discriminate.
Defined.

(** X14: every key a parser returns is clean: it has the shape of the
    mode, its title has no white space at either end and, when urls are
    not decoded, its url is not empty: an anchor without [href] or with
    an empty one is dropped. *)
Theorem parsed_keys_are_clean (unquote : string -> string)
    (sc : Stream.script) (mode : string) (filter_enabled decode_enabled : bool)
    (content : list Stream.event) (k : CanonicalKey) :
  k ∈ Stream.b_set
        (Stream.parse_bookmarks_file_fast unquote sc mode filter_enabled
           decode_enabled content) ->
  clean_key mode decode_enabled k.
Proof.
  unfold Stream.parse_bookmarks_file_fast. cbn [Stream.b_set].
  intros Hk%elem_of_list_to_set.
  pose proof (feed_clean_keys unquote sc content
                (Stream.init mode filter_enabled decode_enabled)) as Hall.
  cbn [Stream.init Stream.mode Stream.decode_enabled Stream.bookmarks] in Hall.
  specialize (Hall (Forall_nil_2 _)).
  rewrite Forall_forall in Hall. by apply Hall.
Qed.

Lemma parsed_keys_are_clean_witness :
  clean_key "url-title" false (KPair "http://x.com" "X y").
Proof.
  apply (parsed_keys_are_clean (fun s => s) Stream.TwoFile "url-title"
           false false
           [Stream.StartTag "a" [("href", Some "http://x.com")];
            Stream.Data " X y "; Stream.EndTag "a"]).
  unfold Stream.parse_bookmarks_file_fast. cbn [Stream.b_set].
  apply elem_of_list_to_set. vm_compute. apply list_elem_of_here.
Defined.

(** X15: in the mode [url] the texts of a file play no part in its
    bookmarks: two files with the same tags, whatever their texts, give
    the same keys and the same total. *)
Theorem url_mode_ignores_text (unquote : string -> string)
    (sc : Stream.script) (filter_enabled decode_enabled : bool)
    (content1 content2 : list Stream.event) :
  filter (fun e => is_markup e = true) content1
  = filter (fun e => is_markup e = true) content2 ->
  let d1 := Stream.parse_bookmarks_file_fast unquote sc "url" filter_enabled
              decode_enabled content1 in
  let d2 := Stream.parse_bookmarks_file_fast unquote sc "url" filter_enabled
              decode_enabled content2 in
  Stream.b_set d1 = Stream.b_set d2 /\ Stream.b_total d1 = Stream.b_total d2.
Proof.
  intros Heq d1 d2. subst d1 d2. unfold Stream.parse_bookmarks_file_fast.
  cbn [Stream.b_set Stream.b_total].
  set (p := Stream.init "url" filter_enabled decode_enabled).
  assert (same_links p p) as Hpp by done.
  pose proof (feed_same_links unquote sc content1 p p eq_refl Hpp)
    as (_ & _ & _ & H1 & _).
  pose proof (feed_same_links unquote sc content2 p p eq_refl Hpp)
    as (_ & _ & _ & H2 & _).
  rewrite Heq in H1. rewrite H2 in H1. by rewrite H1.
Qed.

Lemma url_mode_ignores_text_witness :
  Stream.b_total
    (Stream.parse_bookmarks_file_fast (fun s => s) Stream.TwoFile "url"
       false false
       [Stream.StartTag "a" [("href", Some "u")]; Stream.Data "one";
        Stream.EndTag "a"])
  = Stream.b_total
      (Stream.parse_bookmarks_file_fast (fun s => s) Stream.TwoFile "url"
         false false
         [Stream.StartTag "a" [("href", Some "u")]; Stream.EndTag "a";
          Stream.Data "two"]).
Proof.
  apply (url_mode_ignores_text (fun s => s) Stream.TwoFile false false
           [Stream.StartTag "a" [("href", Some "u")]; Stream.Data "one";
            Stream.EndTag "a"]
           [Stream.StartTag "a" [("href", Some "u")]; Stream.EndTag "a";
            Stream.Data "two"]).
  reflexivity.
Defined.

(** ** The comparison of two files *)

Lemma difference_splits `{Countable K} (A B : gset K) :
  splits A B (A ∖ B) (B ∖ A).
Proof.
  unfold splits. repeat split.
  - intros x [? ?]%elem_of_difference [? ?]%elem_of_difference. done.
  - intros x [? ?]%elem_of_difference ?. done.
  - intros x [? ?]%elem_of_difference ?. done.
  - apply set_eq. intros x.
    rewrite elem_of_union, elem_of_difference, elem_of_intersection.
    destruct (decide (x ∈ B)); tauto.
  - apply set_eq. intros x.
    rewrite elem_of_union, elem_of_difference, elem_of_intersection.
    destruct (decide (x ∈ A)); tauto.
  - intros [Ha Hb]. apply set_eq. intros x.
    assert (x ∉ A ∖ B) as H1 by (rewrite Ha; apply not_elem_of_empty).
    assert (x ∉ B ∖ A) as H2 by (rewrite Hb; apply not_elem_of_empty).
    rewrite elem_of_difference in H1, H2.
    destruct (decide (x ∈ A)), (decide (x ∈ B)); tauto.
  - subst. apply set_eq. intros x.
    rewrite elem_of_difference. split; [tauto|by intros ?%not_elem_of_empty].
  - subst. apply set_eq. intros x.
    rewrite elem_of_difference. split; [tauto|by intros ?%not_elem_of_empty].
Qed.

(** X16: the comparison of two files splits them: what is only in the
    first and what is only in the second are disjoint, each is disjoint
    from the other file, each with the common part gives back its file,
    and both are empty exactly when the files hold the same set; for the
    bookmarks and for the folders, in both comparison scripts. *)
Theorem comparison_splits (unquote : string -> string)
    (text1 text2 : string) (content1 content2 : list Stream.event)
    (mode : string) (filter_enabled decode_enabled : bool) :
  let r := Compare.generate_report text1 text2 mode in
  let p1 := Regex.parse_bookmarks_file text1 mode in
  let p2 := Regex.parse_bookmarks_file text2 mode in
  let r' := Compare.generate_report_fast unquote content1 content2 mode
              filter_enabled decode_enabled in
  let d1 := Stream.parse_bookmarks_file_fast unquote Stream.TwoFile mode
              filter_enabled decode_enabled content1 in
  let d2 := Stream.parse_bookmarks_file_fast unquote Stream.TwoFile mode
              filter_enabled decode_enabled content2 in
  (splits p1.1 p2.1
     (Compare.bookmarks_only_in_1 r) (Compare.bookmarks_only_in_2 r) /\
   splits p1.2 p2.2
     (Compare.folders_only_in_1 r) (Compare.folders_only_in_2 r)) /\
  (splits (Stream.b_set d1) (Stream.b_set d2)
     (Compare.bookmarks_only_in_1 r') (Compare.bookmarks_only_in_2 r') /\
   splits (Stream.f_set d1) (Stream.f_set d2)
     (Compare.folders_only_in_1 r') (Compare.folders_only_in_2 r')).
Proof.
  intros r p1 p2 r' d1 d2. subst r r'. split.
  - unfold Compare.generate_report. fold p1 p2.
    destruct p1 as [b1 f1], p2 as [b2 f2]. cbn.
    split; apply difference_splits.
  - unfold Compare.generate_report_fast. fold d1 d2. cbn.
    split; apply difference_splits.
Qed.

(** X17: the comparison is symmetric, and a file has no difference with
    itself: exchanging the two files exchanges the two sides of the
    report, and comparing a file with itself gives four empty sets. *)
Theorem comparison_symmetric (unquote : string -> string)
    (text1 text2 : string) (content1 content2 : list Stream.event)
    (mode : string) (filter_enabled decode_enabled : bool) :
  let swap r :=
    Compare.Differences
      (Compare.bookmarks_only_in_2 r) (Compare.bookmarks_only_in_1 r)
      (Compare.folders_only_in_2 r) (Compare.folders_only_in_1 r) in
  (Compare.generate_report text2 text1 mode
   = swap (Compare.generate_report text1 text2 mode) /\
   Compare.generate_report text1 text1 mode = Compare.Differences ∅ ∅ ∅ ∅) /\
  (Compare.generate_report_fast unquote content2 content1 mode
     filter_enabled decode_enabled
   = swap (Compare.generate_report_fast unquote content1 content2 mode
             filter_enabled decode_enabled) /\
   Compare.generate_report_fast unquote content1 content1 mode
     filter_enabled decode_enabled
   = Compare.Differences ∅ ∅ ∅ ∅).
Proof.
  intros swap. subst swap. cbv beta.
  assert (forall `{Countable K} (X : gset K), X ∖ X = ∅) as Hself.
  { intros K ? ? X. apply set_eq. intros x. rewrite elem_of_difference.
    split; [tauto|by intros ?%not_elem_of_empty]. }
  split.
  - unfold Compare.generate_report.
    destruct (Regex.parse_bookmarks_file text1 mode) as [b1 f1].
    destruct (Regex.parse_bookmarks_file text2 mode) as [b2 f2].
    unfold Compare.compare. cbn. split; [done|]. by rewrite !Hself.
  - unfold Compare.generate_report_fast, Compare.compare. cbn.
    split; [done|]. by rewrite !Hself.
Qed.

(** ** The items unique to one file *)

Section UniqueFacts.

Lemma union_except_spec `{Countable K} (i j : nat) (sets : list (gset K))
    (acc : gset K) (k : K) :
  k ∈ Unique.union_except i j sets acc
  <-> k ∈ acc \/
      exists n s, sets !! n = Some s /\ (j + n)%nat <> i /\ k ∈ s.
Proof.
  revert j acc. induction sets as [|s sets IH]; intros j acc;
    cbn [Unique.union_except].
  - split; [by left|]. intros [?|(n & s & Hn & _)]; [done|].
    by rewrite lookup_nil in Hn.
  - rewrite IH. destruct (decide (i = j)) as [->|Hij].
    + split.
      * intros [?|(n & t & Hn & Hne & Hk)]; [by left|].
        right. exists (S n), t. split; [done|]. split; [lia|done].
      * intros [?|(n & t & Hn & Hne & Hk)]; [by left|].
        destruct n as [|n]; [lia|].
        right. exists n, t. split; [done|]. split; [lia|done].
    + rewrite elem_of_union. split.
      * intros [[?|?]|(n & t & Hn & Hne & Hk)].
        -- by left.
        -- right. exists 0%nat, s. split; [done|]. split; [lia|done].
        -- right. exists (S n), t. split; [done|]. split; [lia|done].
      * intros [?|(n & t & Hn & Hne & Hk)]; [by left; left|].
        destruct n as [|n].
        -- injection Hn as <-. by left; right.
        -- right. exists n, t. split; [done|]. split; [lia|done].
Qed.

Lemma difference_union_except `{Countable K} (sets : list (gset K))
    (i : nat) (s : gset K) :
  sets !! i = Some s ->
  forall k, k ∈ s ∖ Unique.union_except i 0 sets ∅ <-> only_at sets i k.
Proof.
  intros Hs k. rewrite elem_of_difference, union_except_spec.
  unfold only_at. split.
  - intros [Hk Hn]. split; [by exists s|].
    intros j t Hj Ht Hkt. apply Hn. right. exists j, t. by cbn.
  - intros [(t & Ht & Hk) Hn]. rewrite Hs in Ht. injection Ht as <-.
    split; [done|].
    intros [?%not_elem_of_empty|(n & t & Ht & Hne & Hk')]; [done|].
    by apply (Hn n t).
Qed.

(** Each entry of the result belongs to the file at the same index and
    holds what that file alone holds. *)
Lemma unique_lookup (all_data : list Stream.file_data)
    (us : list (gset CanonicalKey * gset string)) :
  Unique.analyze_multiple_files all_data = Some us ->
  forall i u, us !! i = Some u ->
    is_Some (all_data !! i) /\
    (forall k, k ∈ u.1 <-> only_at (Stream.b_set <$> all_data) i k) /\
    (forall x, x ∈ u.2 <-> only_at (Stream.f_set <$> all_data) i x).
Proof.
  unfold Unique.analyze_multiple_files.
  destruct (length all_data <? 2)%nat; [done|].
  intros [= <-] i u Hu. rewrite list_lookup_imap in Hu.
  destruct (all_data !! i) as [d|] eqn:Hd; [|done].
  cbn in Hu. injection Hu as <-. split; [by exists d|].
  split; intros y; cbn [fst snd]; apply difference_union_except;
    by rewrite list_lookup_fmap, Hd.
Qed.

Lemma unique_some (all_data : list Stream.file_data) :
  (2 <= length all_data)%nat ->
  exists us, Unique.analyze_multiple_files all_data = Some us /\
             length us = length all_data.
Proof.
  intros Hlen. unfold Unique.analyze_multiple_files.
  destruct (Nat.ltb_spec (length all_data) 2); [lia|].
  eexists. split; [done|]. by rewrite length_imap.
Qed.

Lemma only_at_disjoint `{Countable K} (sets : list (gset K)) (i j : nat)
    (x : K) :
  i <> j -> only_at sets i x -> only_at sets j x -> False.
Proof.
  intros Hij [(s & Hs & Hx) _] [_ Hn]. by apply (Hn i s).
Qed.

Section Paths.
Variable parsed : string -> gset CanonicalKey * gset string.

Lemma dict_set_elem (fp : string)
    (d : list (string * (gset CanonicalKey * gset string))) :
  (forall x, x ∈ d -> x.2 = parsed x.1) ->
  forall x, x ∈ Unique.dict_set fp (parsed fp) d
            <-> x ∈ d \/ x = (fp, parsed fp).
Proof.
  induction d as [|[f v] d IH]; intros Hd x; cbn [Unique.dict_set].
  - rewrite list_elem_of_singleton. split; [by right|].
    intros [?%not_elem_of_nil|?]; done.
  - assert (v = parsed f) as -> by (apply (Hd (f, v)); by left).
    destruct (decide (f = fp)) as [->|Hne].
    + split; [by left|]. intros [?| ->]; [done|by left].
    + rewrite !elem_of_cons, IH.
      * tauto.
      * intros y Hy. apply Hd. by right.
Qed.

Lemma all_data_fold_elem (filepaths : list string)
    (d : list (string * (gset CanonicalKey * gset string))) :
  (forall x, x ∈ d -> x.2 = parsed x.1) ->
  forall x,
    x ∈ fold_left (fun d fp => Unique.dict_set fp (parsed fp) d) filepaths d
    <-> x ∈ d \/ exists f, f ∈ filepaths /\ x = (f, parsed f).
Proof.
  revert d. induction filepaths as [|fp fps IH]; intros d Hd x; cbn.
  - split; [by left|]. intros [?|(f & ?%not_elem_of_nil & _)]; done.
  - rewrite IH.
    + rewrite dict_set_elem by done. split.
      * intros [[?| ->]|(f & Hf & ->)]; [by left| |].
        -- right. exists fp. split; [by left|done].
        -- right. exists f. split; [by right|done].
      * intros [?|(f & [->|Hf]%elem_of_cons & ->)].
        -- by left; left.
        -- by left; right.
        -- right. by exists f.
    + intros y [Hy | ->]%dict_set_elem; [by apply Hd|done|done].
Qed.

Lemma all_data_of_elem (filepaths : list string)
    (x : string * (gset CanonicalKey * gset string)) :
  x ∈ Unique.all_data_of parsed filepaths
  <-> exists f, f ∈ filepaths /\ x = (f, parsed f).
Proof.
  unfold Unique.all_data_of. rewrite all_data_fold_elem.
  - split; [|by right]. intros [?%not_elem_of_nil|?]; done.
  - intros y ?%not_elem_of_nil. done.
Qed.

Lemma others_union_elem `{Countable K}
    (g : gset CanonicalKey * gset string -> gset K) (fp : string)
    (d : list (string * (gset CanonicalKey * gset string))) (k : K) :
  k ∈ (⋃ (flat_map (fun fd => if decide (fd.1 <> fp) then [g fd.2] else [])
            d) : gset K)
  <-> exists fd, fd ∈ d /\ fd.1 <> fp /\ k ∈ g fd.2.
Proof.
  rewrite elem_of_union_list. split.
  - intros (X & HX & Hk). apply list_elem_of_In, in_flat_map in HX.
    destruct HX as (fd & Hfd & HX). exists fd.
    split; [by apply list_elem_of_In|].
    destruct (decide (fd.1 <> fp)); [|by destruct HX].
    destruct HX as [<-|[]]. done.
  - intros (fd & Hfd & Hne & Hk). exists (g fd.2). split; [|done].
    apply list_elem_of_In, in_flat_map. exists fd.
    split; [by apply list_elem_of_In|].
    destruct (decide (fd.1 <> fp)); [by left|done].
Qed.

Lemma dict_get_elem (fp : string)
    (d : list (string * (gset CanonicalKey * gset string))) :
  (forall x, x ∈ d -> x.2 = parsed x.1) ->
  (exists v, (fp, v) ∈ d) ->
  Unique.dict_get fp d = Some (parsed fp).
Proof.
  induction d as [|[f v] d IH]; intros Hd (w & Hw).
  - by apply not_elem_of_nil in Hw.
  - cbn [Unique.dict_get]. destruct (decide (f = fp)) as [->|Hne].
    + f_equal. apply (Hd (fp, v)). by left.
    + apply IH.
      * intros y Hy. apply Hd. by right.
      * apply elem_of_cons in Hw as [[= ? ?]|Hw]; [done|by exists w].
Qed.

Lemma all_data_get (filepaths : list string) (fp : string) :
  fp ∈ filepaths ->
  Unique.dict_get fp (Unique.all_data_of parsed filepaths)
  = Some (parsed fp).
Proof.
  intros Hin. apply dict_get_elem.
  - intros x (f & _ & ->)%all_data_of_elem. done.
  - exists (parsed fp). apply all_data_of_elem. by exists fp.
Qed.

Lemma unique_items_spec (filepaths : list string) (fp : string) :
  fp ∈ filepaths ->
  exists u,
    Unique.unique_items parsed filepaths fp = Some u /\
    (forall k, k ∈ u.1 <->
       k ∈ (parsed fp).1 /\
       forall f, f ∈ filepaths -> f <> fp -> k ∉ (parsed f).1) /\
    (forall x, x ∈ u.2 <->
       x ∈ (parsed fp).2 /\
       forall f, f ∈ filepaths -> f <> fp -> x ∉ (parsed f).2).
Proof.
  intros Hin. unfold Unique.unique_items. rewrite (all_data_get _ _ Hin).
  eexists. split; [done|]. cbn [fst snd]. split; intros y.
  - rewrite elem_of_difference, (others_union_elem fst). split.
    + intros [Hy Hn]. split; [done|]. intros f Hf Hne Hyf. apply Hn.
      exists (f, parsed f). split; [|done].
      apply all_data_of_elem. by exists f.
    + intros [Hy Hn]. split; [done|].
      intros ([f v] & (f' & Hf & [= -> ->])%all_data_of_elem & Hne & Hyf).
      by apply (Hn f').
  - rewrite elem_of_difference, (others_union_elem snd). split.
    + intros [Hy Hn]. split; [done|]. intros f Hf Hne Hyf. apply Hn.
      exists (f, parsed f). split; [|done].
      apply all_data_of_elem. by exists f.
    + intros [Hy Hn]. split; [done|].
      intros ([f v] & (f' & Hf & [= -> ->])%all_data_of_elem & Hne & Hyf).
      by apply (Hn f').
Qed.

End Paths.

End UniqueFacts.

(** X18: with at least two parsed files the analysis mode 'unique' of the
    event-driven multi-file script gives one entry per file, and the entry
    at index [i] holds exactly the bookmarks, and exactly the folders, of
    the file at index [i] that no file at another index holds. *)
Theorem unique_is_exclusive (all_data : list Stream.file_data) :
  (2 <= length all_data)%nat ->
  exists us,
    Unique.analyze_multiple_files all_data = Some us /\
    length us = length all_data /\
    forall i u, us !! i = Some u ->
      (forall k, k ∈ u.1 <-> only_at (Stream.b_set <$> all_data) i k) /\
      (forall x, x ∈ u.2 <-> only_at (Stream.f_set <$> all_data) i x).
Proof.
  intros Hlen. destruct (unique_some all_data Hlen) as (us & Hus & Hl).
  exists us. split; [done|]. split; [done|].
  intros i u Hu. by destruct (unique_lookup all_data us Hus i u Hu) as [_ ?].
Qed.

Lemma unique_is_exclusive_witness :
  let a := Stream.FileData {[KUrl "http://a"; KUrl "http://c"]} 2 ∅ 0 in
  let b := Stream.FileData {[KUrl "http://b"; KUrl "http://c"]} 2 ∅ 0 in
  (2 <= length [a; b])%nat /\
  exists us,
    Unique.analyze_multiple_files [a; b] = Some us /\
    length us = length [a; b] /\
    forall i u, us !! i = Some u ->
      (forall k, k ∈ u.1 <-> only_at (Stream.b_set <$> [a; b]) i k) /\
      (forall x, x ∈ u.2 <-> only_at (Stream.f_set <$> [a; b]) i x).
Proof.
  intros a b. split; [cbn; lia|].
  apply (unique_is_exclusive [a; b]). cbn. lia.
Defined.

(** X19: in the analysis mode 'unique' no item is reported for two files,
    and no item reported as unique to a file is among the items that the
    analysis mode 'intersection' reports as common to all files, for the
    bookmarks and for the folders. *)
Theorem unique_sets_disjoint (all_data : list Stream.file_data)
    (us : list (gset CanonicalKey * gset string)) :
  Unique.analyze_multiple_files all_data = Some us ->
  (forall i j u v, i <> j -> us !! i = Some u -> us !! j = Some v ->
     u.1 ## v.1 /\ u.2 ## v.2) /\
  (forall c i u, Stream.analyze_multiple_files all_data = Some c ->
     us !! i = Some u -> u.1 ## c.1 /\ u.2 ## c.2).
Proof.
  intros Hus. split.
  - intros i j u v Hij Hu Hv.
    destruct (unique_lookup all_data us Hus i u Hu) as (_ & Hb & Hf).
    destruct (unique_lookup all_data us Hus j v Hv) as (_ & Hb' & Hf').
    split; intros y Hy Hy'.
    + apply Hb in Hy. apply Hb' in Hy'.
      by eapply (only_at_disjoint _ i j y).
    + apply Hf in Hy. apply Hf' in Hy'.
      by eapply (only_at_disjoint _ i j y).
  - intros c i u Hc Hu.
    destruct (unique_lookup all_data us Hus i u Hu) as (_ & Hb & Hf).
    destruct (stream_intersection_spec all_data c Hc) as [Hcb Hcf].
    assert (exists j d, j <> i /\ all_data !! j = Some d) as (j & d & Hj & Hd).
    { unfold Unique.analyze_multiple_files in Hus.
      destruct (Nat.ltb_spec (length all_data) 2) as [|Hlen]; [done|].
      destruct all_data as [|d0 [|d1 rest]]; [cbn in Hlen; lia..|].
      destruct i as [|i].
      - by exists 1%nat, d1.
      - by exists 0%nat, d0. }
    assert (d ∈ all_data) as Hin by by eapply list_elem_of_lookup_2.
    split; intros y Hy Hy'.
    + apply Hb in Hy. destruct Hy as [_ Hn].
      apply (Hn j (Stream.b_set d)); [done| |].
      * by rewrite list_lookup_fmap, Hd.
      * by apply Hcb.
    + apply Hf in Hy. destruct Hy as [_ Hn].
      apply (Hn j (Stream.f_set d)); [done| |].
      * by rewrite list_lookup_fmap, Hd.
      * by apply Hcf.
Qed.

Lemma unique_sets_disjoint_witness :
  let a := Stream.FileData {[KUrl "http://a"; KUrl "http://c"]} 2 ∅ 0 in
  let b := Stream.FileData {[KUrl "http://b"; KUrl "http://c"]} 2 ∅ 0 in
  exists us,
    Unique.analyze_multiple_files [a; b] = Some us /\
    (forall i j u v, i <> j -> us !! i = Some u -> us !! j = Some v ->
       u.1 ## v.1 /\ u.2 ## v.2) /\
    (forall c i u, Stream.analyze_multiple_files [a; b] = Some c ->
       us !! i = Some u -> u.1 ## c.1 /\ u.2 ## c.2).
Proof.
  intros a b. eexists. split; [reflexivity|].
  apply (unique_sets_disjoint [a; b]). reflexivity.
Defined.


(** X21: for every listed path [generate_multi_report] finds the entry of
    the path and reports as unique to it exactly the items of its file
    that the file of no other listed path holds; so the unique items of
    two different listed paths are disjoint, and neither the order of the
    paths nor a path listed twice changes them. *)
Theorem unique_items_by_path
    (parsed : string -> gset CanonicalKey * gset string)
    (filepaths : list string) (fp : string) :
  fp ∈ filepaths ->
  exists u,
    Unique.unique_items parsed filepaths fp = Some u /\
    ((forall k, k ∈ u.1 <->
        k ∈ (parsed fp).1 /\
        forall f, f ∈ filepaths -> f <> fp -> k ∉ (parsed f).1) /\
     (forall x, x ∈ u.2 <->
        x ∈ (parsed fp).2 /\
        forall f, f ∈ filepaths -> f <> fp -> x ∉ (parsed f).2)) /\
    (forall fp' u', fp' <> fp -> fp' ∈ filepaths ->
       Unique.unique_items parsed filepaths fp' = Some u' ->
       u.1 ## u'.1 /\ u.2 ## u'.2) /\
    (forall filepaths', (forall f, f ∈ filepaths <-> f ∈ filepaths') ->
       Unique.unique_items parsed filepaths' fp = Some u).
Proof.
  intros Hin.
  destruct (unique_items_spec parsed filepaths fp Hin) as (u & Hu & Hb & Hf).
  exists u. split; [done|]. split; [done|]. split.
  - intros fp' u' Hne Hin' Hu'.
    destruct (unique_items_spec parsed filepaths fp' Hin')
      as (u'' & Hu'' & Hb' & Hf').
    rewrite Hu' in Hu''. injection Hu'' as <-.
    split; intros y Hy Hy'.
    + apply Hb in Hy. apply Hb' in Hy'. destruct Hy as [Hy _].
      destruct Hy' as [_ Hn]. by apply (Hn fp).
    + apply Hf in Hy. apply Hf' in Hy'. destruct Hy as [Hy _].
      destruct Hy' as [_ Hn]. by apply (Hn fp).
  - intros filepaths' Heq.
    destruct (unique_items_spec parsed filepaths' fp) as (v & Hv & Hb' & Hf');
      [by apply Heq|].
    rewrite Hv. f_equal. destruct u as [b f], v as [b' f'].
    cbn [fst snd] in *. f_equal; apply set_eq; intros y.
    + rewrite Hb, Hb'. by setoid_rewrite Heq.
    + rewrite Hf, Hf'. by setoid_rewrite Heq.
Qed.

Lemma unique_items_by_path_witness :
  let parsed (f : string) : gset CanonicalKey * gset string :=
    if decide (f = "a.html") then ({[KUrl "http://a"; KUrl "http://c"]}, ∅)
    else ({[KUrl "http://b"; KUrl "http://c"]}, {["News"]}) in
  let filepaths := ["a.html"; "b.html"; "a.html"] in
  "a.html" ∈ filepaths /\
  exists u,
    Unique.unique_items parsed filepaths "a.html" = Some u /\
    ((forall k, k ∈ u.1 <->
        k ∈ (parsed "a.html").1 /\
        forall f, f ∈ filepaths -> f <> "a.html" -> k ∉ (parsed f).1) /\
     (forall x, x ∈ u.2 <->
        x ∈ (parsed "a.html").2 /\
        forall f, f ∈ filepaths -> f <> "a.html" -> x ∉ (parsed f).2)) /\
    (forall fp' u', fp' <> "a.html" -> fp' ∈ filepaths ->
       Unique.unique_items parsed filepaths fp' = Some u' ->
       u.1 ## u'.1 /\ u.2 ## u'.2) /\
    (forall filepaths', (forall f, f ∈ filepaths <-> f ∈ filepaths') ->
       Unique.unique_items parsed filepaths' "a.html" = Some u).
Proof.
  intros parsed filepaths.
  assert ("a.html" ∈ filepaths) as Hin by apply list_elem_of_here.
  split; [exact Hin|].
  exact (unique_items_by_path parsed filepaths "a.html" Hin).
Defined.

(** ** Titles and folder names without their tags *)

Section TagFacts.
Variable p : ascii -> bool.
Hypothesis p_lt : p "<"%char = true.

Lemma lazy_tag_loop (t : string) :
  Re.rmatch false (Re.Lazy p) t []
    (fun s' caps' =>
       Re.rmatch false (Re.Seq (Re.Lit ">"%char) Re.Eps) s' caps'
         (fun rest caps => Some (rest, caps)))
  = option_map (fun r => (r, [])) (tag_rest p t).
Proof.
  induction t as [|c t IH]; [done|].
  cbn -[Ascii.eqb] in IH |- *. rewrite (Ascii.eqb_sym ">"%char c).
  destruct (Ascii.eqb c ">"%char); [done|].
  destruct (p c); [exact IH|done].
Qed.

(** A tag matches at the head of [s] when [s] starts with [<] and a [>]
    follows after characters of the class only. *)
Lemma re_match_tag (s : string) :
  Re.re_match false (tag_over p) s
  = match s with
    | String c t =>
        if Ascii.eqb "<"%char c
        then option_map (fun r => (r, [])) (tag_rest p t)
        else None
    | EmptyString => None
    end.
Proof.
  destruct s as [|c t]; [done|].
  unfold Re.re_match, tag_over, Re.cat. cbn [foldr].
  change (Re.rmatch false (Re.Seq (Re.Lit "<"%char) ?r) (String c t) [] ?k)
    with (if Ascii.eqb "<"%char c then Re.rmatch false r t [] k else None).
  destruct (Ascii.eqb "<"%char c); [|done].
  apply lazy_tag_loop.
Qed.

Lemma tag_free_nil : tag_free p "".
Proof.
  intros u [pre Hu]. destruct pre; [|done].
  rewrite append_nil_l in Hu. by subst.
Qed.

Lemma tag_free_cons (c : ascii) (s : string) :
  tag_free p (String c s)
  <-> Re.re_match false (tag_over p) (String c s) = None /\ tag_free p s.
Proof.
  split.
  - intros H. split; [apply H, suffix_of_refl|].
    intros u Hu. by apply H, suffix_of_cons.
  - intros [Hc Hs] u [pre Hu]. destruct pre as [|x pre].
    + rewrite append_nil_l in Hu. by subst.
    + rewrite append_cons in Hu. injection Hu as -> ->.
      apply Hs. by exists pre.
Qed.

Lemma tag_free_suffix (t s : string) :
  suffix_of t s -> tag_free p s -> tag_free p t.
Proof. intros Hts Hs u Hu. apply Hs. by eapply suffix_of_trans. Qed.

Lemma tag_rest_app (t r w : string) :
  tag_rest p t = Some r -> tag_rest p (t +:+ w) = Some (r +:+ w).
Proof.
  induction t as [|c t IH]; [done|]. rewrite append_cons.
  cbn -[Ascii.eqb]. destruct (Ascii.eqb c ">"%char); [by intros [= <-]|].
  destruct (p c); [exact IH|done].
Qed.

(** Cutting the end of a text brings no tag into it. *)
Lemma tag_free_prefix (o w : string) : tag_free p (o +:+ w) -> tag_free p o.
Proof.
  intros H u [pre ->].
  assert (Re.re_match false (tag_over p) (u +:+ w) = None) as Hw.
  { apply H. exists pre. by rewrite append_assoc. }
  rewrite re_match_tag in Hw |- *. destruct u as [|c t]; [done|].
  rewrite append_cons in Hw. destruct (Ascii.eqb "<"%char c); [|done].
  destruct (tag_rest p t) as [r|] eqn:E; [|done].
  by rewrite (tag_rest_app t r w E) in Hw.
Qed.

(** Where no [>] closes a tag before the removal of the tags, none does
    after it. *)
Lemma tag_rest_sub (s : string) :
  tag_rest p s = None ->
  tag_rest p (Re.sub_from false (tag_over p) "" s 0) = None.
Proof.
  induction s as [|c s IH]; [done|]. intros H.
  cbn -[Ascii.eqb] in H. cbn [Re.sub_from]. rewrite re_match_tag.
  destruct (Ascii.eqb c ">"%char) eqn:Egt; [done|].
  destruct (Ascii.eqb_spec "<"%char c) as [<-|Hlt].
  - rewrite p_lt in H. rewrite H. cbn -[Ascii.eqb].
    rewrite Egt, p_lt. by apply IH.
  - cbn -[Ascii.eqb]. rewrite Egt.
    destruct (p c); [by apply IH|done].
Qed.

(** The removal of the tags leaves no tag. *)
Lemma sub_from_tag_free (s : string) (skip : nat) :
  tag_free p (Re.sub_from false (tag_over p) "" s skip).
Proof.
  revert skip. induction s as [|c s IH]; intros skip; [apply tag_free_nil|].
  cbn [Re.sub_from]. destruct skip as [|n]; [|apply IH].
  destruct (Re.re_match false (tag_over p) (String c s)) as [[rest caps]|]
    eqn:E.
  - rewrite append_nil_l. apply IH.
  - apply tag_free_cons. split; [|apply IH].
    rewrite re_match_tag in E |- *.
    destruct (Ascii.eqb "<"%char c); [|done].
    destruct (tag_rest p s) eqn:Er; [done|].
    by rewrite tag_rest_sub.
Qed.

(** The removal of the tags changes nothing in a text without a tag. *)
Lemma sub_from_fixed (s : string) :
  tag_free p s -> Re.sub_from false (tag_over p) "" s 0 = s.
Proof.
  induction s as [|c s IH]; [done|].
  intros [Hc Hs]%tag_free_cons. cbn [Re.sub_from]. rewrite Hc.
  by rewrite IH.
Qed.

Lemma lstrip_suffix (s : string) : suffix_of (PyStr.lstrip s) s.
Proof.
  induction s as [|c s IH]; [apply suffix_of_refl|]. cbn.
  destruct (PyStr.is_space c); [by apply suffix_of_cons|apply suffix_of_refl].
Qed.

Lemma rstrip_prefix (s : string) : exists w, s = PyStr.rstrip s +:+ w.
Proof.
  induction s as [|c s [w IH]]; [by exists ""|]. cbn [PyStr.rstrip].
  destruct (PyStr.rstrip s) as [|d r] eqn:E.
  - destruct (PyStr.is_space c).
    + by exists (String c s).
    + exists w. rewrite append_cons. by rewrite <- IH.
  - exists w. rewrite append_cons. by rewrite <- IH.
Qed.

Lemma strip_tag_free (s : string) : tag_free p s -> tag_free p (PyStr.strip s).
Proof.
  intros H. unfold PyStr.strip.
  destruct (rstrip_prefix (PyStr.lstrip s)) as [w Hw].
  apply (tag_free_prefix _ w). rewrite <- Hw.
  apply (tag_free_suffix _ s); [apply lstrip_suffix|done].
Qed.

(** A text without its tags and without the white space around it. *)
Lemma stripped_sub_clean (text : string) :
  let t := PyStr.strip (Re.sub false (tag_over p) "" text) in
  tag_free p t /\ stripped t /\
  PyStr.strip (Re.sub false (tag_over p) "" t) = t.
Proof.
  intros t. subst t.
  assert (tag_free p (PyStr.strip (Re.sub false (tag_over p) "" text)))
    as Hfree by apply strip_tag_free, sub_from_tag_free.
  split; [done|]. split; [apply strip_stripped|].
  unfold Re.sub at 1. rewrite sub_from_fixed by done.
  apply strip_fixed, strip_stripped.
Qed.

End TagFacts.

(** X22: removing the tags of a text and stripping it, as every regular-
    expression parser does with a title or a folder name, leaves a text
    in which no tag starts and with no white space at either end, and
    doing it again changes nothing; with and without [re.DOTALL]. *)
Theorem clean_removes_tags (text : string) :
  let dotall t := PyStr.strip (Re.sub false DedupFile.tag_pattern_dotall "" t) in
  (tag_free Re.dot (Regex.clean text) /\ stripped (Regex.clean text) /\
   Regex.clean (Regex.clean text) = Regex.clean text) /\
  (tag_free Re.dot_all (dotall text) /\ stripped (dotall text) /\
   dotall (dotall text) = dotall text).
Proof.
  split.
  - apply (stripped_sub_clean Re.dot eq_refl text).
  - apply (stripped_sub_clean Re.dot_all eq_refl text).
Qed.

(** X23: what [parse_bookmarks_file] of the regular-expression comparison
    scripts returns is clean: every key has the shape of the mode, so an
    unknown mode gives no key, every title and every folder name is free
    of tags and has no white space at either end. *)
Theorem regex_parse_is_clean (content mode : string) :
  let r := Regex.parse_bookmarks_file content mode in
  (forall k, k ∈ r.1 ->
     key_of_mode mode k /\ tag_free Re.dot (key_title k) /\
     stripped (key_title k)) /\
  (forall f, f ∈ r.2 -> tag_free Re.dot f /\ stripped f).
Proof.
  unfold Regex.parse_bookmarks_file. cbn [fst snd]. split.
  - intros k Hk. destruct (decide (mode = "url")) as [->|Hn].
    + apply elem_of_list_to_set, list_elem_of_In, in_flat_map in Hk.
      destruct Hk as (m & _ & Hm).
      destruct m as [|u [|? ?]]; try done. destruct Hm as [<-|[]].
      cbn. split; [done|]. split; [apply tag_free_nil|by split].
    + destruct (decide (mode = "url-title")) as [->|Hn'];
        [|by apply not_elem_of_empty in Hk].
      apply elem_of_list_to_set, list_elem_of_In, in_flat_map in Hk.
      destruct Hk as (m & _ & Hm).
      destruct m as [|u [|t [|? ?]]]; try done. destruct Hm as [<-|[]].
      cbn [key_title key_of_mode]. split; [done|].
      by destruct (stripped_sub_clean Re.dot eq_refl t) as (? & ? & _).
  - intros f Hf.
    apply elem_of_list_to_set, list_elem_of_In, in_flat_map in Hf.
    destruct Hf as (m & _ & Hm).
    destruct m as [|t [|? ?]]; try done. destruct Hm as [<-|[]].
    by destruct (stripped_sub_clean Re.dot eq_refl t) as (? & ? & _).
Qed.

(** X24: the deduplication scripts read, keep and write clean titles:
    every bookmark kept from a parsed file has a title free of tags and
    with no white space at either end, and in the robust script, when
    urls are not decoded, a url that is not empty. *)
Theorem kept_titles_are_clean (html_unescape unquote : string -> string)
    (content mode : string) (strict_protocol ignore_slash decode_enabled : bool) :
  let plain :=
    Dedup.deduplicate_and_generate_report mode
      (DedupFile.parse_bookmarks content) in
  let robust :=
    Dedup.deduplicate_and_generate_report_robust mode strict_protocol
      ignore_slash
      (DedupFile.parse_bookmarks_robust html_unescape unquote content
         decode_enabled) in
  (forall b, b ∈ Dedup.kept plain -> tag_free Re.dot b.2 /\ stripped b.2) /\
  (forall b, b ∈ Dedup.kept robust ->
     tag_free Re.dot_all b.2 /\ stripped b.2 /\
     (decode_enabled = false -> b.1 <> "")).
Proof.
  intros plain robust. split; intros b Hb.
  - assert (b ∈ DedupFile.parse_bookmarks content) as Hin.
    { apply (elem_of_sublist _ _ _ Hb). subst plain.
      pose proof (pass_kept_sublist (Dedup.key_plain mode)
                    (DedupFile.parse_bookmarks content)) as H.
      unfold Dedup.deduplicate_and_generate_report.
      by destruct (Dedup.pass _ _). }
    apply list_elem_of_In, in_flat_map in Hin. destruct Hin as (m & _ & Hm).
    destruct m as [|u [|t [|? ?]]]; try done. destruct Hm as [<-|[]].
    by destruct (stripped_sub_clean Re.dot eq_refl t) as (? & ? & _).
  - assert (b ∈ DedupFile.parse_bookmarks_robust html_unescape unquote content
                  decode_enabled) as Hin.
    { apply (elem_of_sublist _ _ _ Hb). subst robust.
      pose proof (pass_kept_sublist
                    (Dedup.key_normalized mode strict_protocol ignore_slash)
                    (DedupFile.parse_bookmarks_robust html_unescape unquote
                       content decode_enabled)) as H.
      unfold Dedup.deduplicate_and_generate_report_robust.
      by destruct (Dedup.pass _ _). }
    apply list_elem_of_In, in_flat_map in Hin. destruct Hin as (m & _ & Hm).
    destruct m as [|u [|t [|? ?]]]; try done.
    destruct (PyStr.truthy u) eqn:Eu; [|done]. destruct Hm as [<-|[]].
    cbn [fst snd].
    match goal with
    | |- tag_free _ (PyStr.strip (Re.sub _ _ _ ?x)) /\ _ =>
        destruct (stripped_sub_clean Re.dot_all eq_refl x) as (H1 & H2 & _)
    end.
    split; [exact H1|]. split; [exact H2|].
    intros ->. by destruct u.
Qed.

(** ** The values written to the cleaned file *)

Section EscapeFacts.

Lemma mem_char_app (c : ascii) (a b : string) :
  PyStr.mem_char c (a +:+ b) = PyStr.mem_char c a || PyStr.mem_char c b.
Proof.
  induction a as [|x a IH]; [by rewrite append_nil_l|].
  rewrite append_cons. cbn [PyStr.mem_char]. rewrite IH.
  by rewrite orb_assoc.
Qed.

(** A replacement leaves no character that it replaces or that neither
    the text nor the replacement holds. *)
Lemma replace_char_free (c old : ascii) (new s : string) :
  PyStr.mem_char c new = false ->
  c = old \/ PyStr.mem_char c s = false ->
  PyStr.mem_char c (DedupFile.replace_char old new s) = false.
Proof.
  intros Hnew. induction s as [|x s IH]; [done|]. intros Hc.
  assert (c = old \/ PyStr.mem_char c s = false) as Hs.
  { destruct Hc as [?|Hc]; [by left|]. right.
    cbn [PyStr.mem_char] in Hc. by apply orb_false_iff in Hc as [_ ?]. }
  cbn [DedupFile.replace_char]. destruct (Ascii.eqb_spec x old) as [->|Hx].
  - rewrite mem_char_app, Hnew. by apply IH.
  - cbn [PyStr.mem_char]. rewrite (IH Hs), orb_false_r.
    destruct Hc as [->|Hc].
    + apply Ascii.eqb_neq. congruence.
    + cbn [PyStr.mem_char] in Hc. by apply orb_false_iff in Hc as [? _].
Qed.

(** A replacement changes nothing in a text without the character. *)
Lemma replace_char_id (old : ascii) (new s : string) :
  PyStr.mem_char old s = false -> DedupFile.replace_char old new s = s.
Proof.
  induction s as [|x s IH]; [done|]. cbn [PyStr.mem_char].
  intros [Hx Hs]%orb_false_iff. cbn [DedupFile.replace_char].
  rewrite Ascii.eqb_sym, Hx. by rewrite IH.
Qed.

End EscapeFacts.

(** X25: what [generate_clean_html_file] writes between the quotes of
    [HREF] holds no double quote, and what it writes as the text of the
    anchor holds neither [<] nor [>]; a url without ampersand and double
    quote, and a name without ampersand, [<] and [>], are written as they
    are. *)
Theorem escaped_values_are_safe (url name : string) :
  (PyStr.mem_char "034"%char (DedupFile.escaped_url url) = false /\
   PyStr.mem_char "<"%char (DedupFile.escaped_name name) = false /\
   PyStr.mem_char ">"%char (DedupFile.escaped_name name) = false) /\
  (PyStr.mem_char "&"%char url = false ->
   PyStr.mem_char "034"%char url = false ->
   DedupFile.escaped_url url = url) /\
  (PyStr.mem_char "&"%char name = false ->
   PyStr.mem_char "<"%char name = false ->
   PyStr.mem_char ">"%char name = false ->
   DedupFile.escaped_name name = name).
Proof.
  unfold DedupFile.escaped_url, DedupFile.escaped_name. split; [split|split].
  - apply replace_char_free; [done|by left].
  - split.
    + apply replace_char_free; [done|]. right.
      apply replace_char_free; [done|by left].
    + apply replace_char_free; [done|by left].
  - intros Ha Hq. rewrite (replace_char_id "&"%char) by done.
    by apply replace_char_id.
  - intros Ha Hl Hg. rewrite (replace_char_id "&"%char) by done.
    rewrite (replace_char_id "<"%char) by done.
    by apply replace_char_id.
Qed.
